(** * newsy: the classification-and-enrichment pipeline of process_diary.py
    and the summary fallback of summary_generator.py, as a shallow embedding.

    Strings are Rocq [string]s of 8-bit characters; the character classes of
    Python ([str.lower], [\d], [\s], [str.strip]) are written out for the
    ASCII range, which is the range the concrete inputs below use.
    Python dicts read in insertion order are association lists in
    declaration order; the per-URL content cache is a [gmap string string]. *)

From stdpp Require Import base gmap strings list.
From Stdlib Require Import Ascii String ZArith Sorted Permutation.

Open Scope string_scope.

(* ------------------------------------------------------------------ *)
(** ** Character classes and string helpers *)

Module Text.
Local Open Scope nat_scope.

(** [c.isdigit()] / regex [\d] on ASCII. *)
Definition is_digit (c : ascii) : bool :=
  let n := nat_of_ascii c in (48 <=? n) && (n <=? 57).

Definition digit_val (c : ascii) : Z := (Z.of_nat (nat_of_ascii c) - 48)%Z.

(** Regex [\s] and [str.isspace] on ASCII: [\t \n \v \f \r], the
    separators [\x1c]-[\x1f] and the space. *)
Definition is_space (c : ascii) : bool :=
  let n := nat_of_ascii c in
  ((9 <=? n) && (n <=? 13)) || ((28 <=? n) && (n <=? 32)).

(** [str.lower] on ASCII: A-Z to a-z, everything else unchanged. *)
Definition lower_char (c : ascii) : ascii :=
  let n := nat_of_ascii c in
  if (65 <=? n) && (n <=? 90) then ascii_of_nat (n + 32) else c.

Fixpoint lower (s : string) : string :=
  match s with
  | EmptyString => EmptyString
  | String c s' => String (lower_char c) (lower s')
  end.

(** [s.startswith(p)]. *)
Fixpoint starts_with (p s : string) : bool :=
  match p, s with
  | EmptyString, _ => true
  | String _ _, EmptyString => false
  | String a p', String b s' => Ascii.eqb a b && starts_with p' s'
  end.

(** Python's [p in s] for strings: [p] occurs as a substring of [s]. *)
Fixpoint contains (p s : string) : bool :=
  starts_with p s ||
  match s with
  | EmptyString => false
  | String _ s' => contains p s'
  end.

Fixpoint lstrip (s : string) : string :=
  match s with
  | String c s' => if is_space c then lstrip s' else s
  | EmptyString => EmptyString
  end.

Definition rev_string (s : string) : string :=
  string_of_list_ascii (rev (list_ascii_of_string s)).

(** [str.strip()]. *)
Definition strip (s : string) : string :=
  rev_string (lstrip (rev_string (lstrip s))).

(** [s[:n]]. *)
Fixpoint str_take (n : nat) (s : string) : string :=
  match n, s with
  | O, _ => EmptyString
  | S _, EmptyString => EmptyString
  | S n', String c s' => String c (str_take n' s')
  end.

(** Decimal rendering of a non-negative integer ([str(n)]), and
    zero-padding to a width ([f"{n:0wd}"]). *)
Fixpoint digits_aux (fuel : nat) (n : Z) (acc : string) : string :=
  match fuel with
  | O => acc
  | S f =>
      let acc' := String (ascii_of_nat (Z.to_nat (n mod 10)%Z + 48)) acc in
      if (n <? 10)%Z then acc' else digits_aux f (n / 10)%Z acc'
  end.

Definition z_to_string (n : Z) : string := digits_aux 64 n EmptyString.

Fixpoint zeros (k : nat) : string :=
  match k with O => EmptyString | S k' => String "0"%char (zeros k') end.

Definition pad0 (w : nat) (n : Z) : string :=
  let s := z_to_string n in (zeros (w - String.length s) ++ s)%string.

End Text.

Import Text.

(* ------------------------------------------------------------------ *)
(** ** The fixed taxonomies [THEMES] and [KEYWORD_PATTERNS] *)

Definition THEMES : list (string * list string) := [
  ("science", ["nsf"; "nasa"; "research"; "climate"; "weather"; "scientist"]);
  ("health", ["cdc"; "fda"; "nih"; "vaccine"; "covid"; "pandemic"; "health"; "medical"; "hospital"]);
  ("education", ["education"; "school"; "university"; "college"; "student"; "teacher"; "harvard"; "columbia"]);
  ("environment", ["epa"; "environment"; "pollution"; "clean"; "toxic"; "waste"; "water"; "air"]);
  ("civil-society", ["dei"; "diversity"; "equity"; "inclusion"; "civil-rights"; "voting"; "democracy"]);
  ("human-rights", ["lgbtq"; "transgender"; "discrimination"; "religious"; "freedom"; "abortion"]);
  ("government", ["federal"; "employee"; "workforce"; "doge"; "efficiency"; "layoff"; "resign"]);
  ("justice", ["fbi"; "doj"; "court"; "judge"; "attorney"; "prosecutor"; "investigation"]);
  ("immigration", ["ice"; "deportation"; "immigrant"; "refugee"; "border"; "asylum"; "visa"]);
  ("trade", ["tariff"; "trade"; "import"; "export"; "nafta"; "china"]);
  ("economy", ["tax"; "budget"; "debt"; "inflation"; "crypto"; "bitcoin"; "stock"; "economy"]);
  ("foreign-affairs", ["ukraine"; "russia"; "israel"; "palestine"; "nato"; "china"; "foreign"])
].

Definition KEYWORD_PATTERNS : list (string * list string) := [
  ("doge", ["doge"; "efficiency"]);
  ("fbi", ["fbi"; "federal bureau"]);
  ("ice", ["ice"; "immigration enforcement"]);
  ("epa", ["epa"; "environmental protection"]);
  ("cdc", ["cdc"; "disease control"]);
  ("nasa", ["nasa"; "space"]);
  ("nsf", ["nsf"; "national science foundation"]);
  ("nih", ["nih"; "health institute"]);
  ("supreme-court", ["supreme court"; "scotus"]);
  ("tariffs", ["tariff"]);
  ("ukraine", ["ukraine"; "zelensky"]);
  ("russia", ["russia"; "putin"]);
  ("israel", ["israel"; "gaza"; "palestine"]);
  ("musk", ["musk"; "elon"]);
  ("rfk-jr", ["rfk"; "kennedy jr"]);
  ("hegseth", ["hegseth"]);
  ("harvard", ["harvard"]);
  ("columbia", ["columbia university"]);
  ("voice-of-america", ["voice of america"; "voa"]);
  ("peace-corps", ["peace corps"]);
  ("social-security", ["social security"; "ssa"]);
  ("veterans", ["veteran"; "va "]);
  ("medicare", ["medicare"; "medicaid"]);
  ("lgbt", ["lgbt"; "transgender"; "gay"; "lesbian"]);
  ("dei", ["dei"; "diversity"; "equity"; "inclusion"]);
  ("climate", ["climate"; "carbon"; "emission"]);
  ("covid", ["covid"; "coronavirus"; "pandemic"]);
  ("abortion", ["abortion"; "reproductive"]);
  ("crypto", ["crypto"; "bitcoin"; "digital currency"])
].

(** The [NewsEntry] dataclass. *)
Record NewsEntry := mkEntry {
  id : nat;
  url : string;
  title : string;
  date : option string;
  themes : list string;
  keywords : list string;
  content_snippet : option string
}.

(* ------------------------------------------------------------------ *)
(** ** [urlparse(url).netloc]

    [urlsplit] first drops leading C0-control-or-space characters and every
    tab, CR and LF; a scheme is split off at the first [:] when it is
    non-empty, starts with a letter and consists of scheme characters; when
    the rest starts with [//] the network location runs up to the first of
    [/ ? #]. A network location with an unmatched [[] or []] raises
    [ValueError("Invalid IPv6 URL")], here [None]. (The extra validation of
    bracketed IPv6 hosts of recent Python releases is not modelled.) *)

Module Url.
Local Open Scope nat_scope.

Fixpoint lstrip_c0 (s : string) : string :=
  match s with
  | String c s' => if nat_of_ascii c <=? 32 then lstrip_c0 s' else s
  | EmptyString => EmptyString
  end.

Fixpoint remove_unsafe (s : string) : string :=
  match s with
  | EmptyString => EmptyString
  | String c s' =>
      let n := nat_of_ascii c in
      if (n =? 9) || (n =? 10) || (n =? 13) then remove_unsafe s'
      else String c (remove_unsafe s')
  end.

Definition is_alpha (c : ascii) : bool :=
  let n := nat_of_ascii c in
  ((65 <=? n) && (n <=? 90)) || ((97 <=? n) && (n <=? 122)).

Definition is_scheme_char (c : ascii) : bool :=
  is_alpha c || is_digit c || Ascii.eqb c "+" || Ascii.eqb c "-" || Ascii.eqb c ".".

(** [url.find(':')] splitting: [Some (before, after)] at the first [:]. *)
Fixpoint split_colon (s : string) : option (string * string) :=
  match s with
  | EmptyString => None
  | String c s' =>
      if Ascii.eqb c ":" then Some (EmptyString, s')
      else match split_colon s' with
           | Some (a, b) => Some (String c a, b)
           | None => None
           end
  end.

Fixpoint all_scheme_chars (s : string) : bool :=
  match s with
  | EmptyString => true
  | String c s' => is_scheme_char c && all_scheme_chars s'
  end.

Definition strip_scheme (u : string) : string :=
  match split_colon u with
  | Some (String c0 sch, rest) =>
      if is_alpha c0 && all_scheme_chars (String c0 sch) then rest else u
  | _ => u
  end.

(** [url[start:delim]] where [delim] is the first of [/ ? #]. *)
Fixpoint upto_delim (s : string) : string :=
  match s with
  | EmptyString => EmptyString
  | String c s' =>
      if Ascii.eqb c "/" || Ascii.eqb c "?" || Ascii.eqb c "#" then EmptyString
      else String c (upto_delim s')
  end.

Definition netloc (url0 : string) : option string :=
  let u := strip_scheme (remove_unsafe (lstrip_c0 url0)) in
  let nl := match u with
            | String "/" (String "/" r) => upto_delim r
            | _ => EmptyString
            end in
  if (contains "[" nl && negb (contains "]" nl))
     || (contains "]" nl && negb (contains "[" nl))
  then None else Some nl.
End Url.

(* ------------------------------------------------------------------ *)
(** ** The Classifier: [tag_entry] and [tag_entry_with_content] *)

Module Classifier.
Local Open Scope nat_scope.

(** [sum(w(p) for p in patterns if cond(p))]. *)
Definition score_with (cond : string -> bool) (w : string -> nat)
    (patterns : list string) : nat :=
  fold_left (fun acc p => if cond p then acc + w p else acc) patterns 0.

(** The [theme_scores] dict, built in [THEMES] order, keeping the themes
    with a positive score. *)
Fixpoint theme_scores_of (score : list string -> nat)
    (ths : list (string * list string)) : list (string * nat) :=
  match ths with
  | [] => []
  | (theme, patterns) :: rest =>
      let sc := score patterns in
      if 0 <? sc then (theme, sc) :: theme_scores_of score rest
      else theme_scores_of score rest
  end.

(** [sorted(items, key=lambda x: x[1], reverse=True)]. Python's sort is
    stable, also with [reverse=True]: items with equal keys keep their
    order. Every stable sort yields the same list; it is computed here by
    insertion, each item placed after all items with a key at least its
    own. *)
Fixpoint insert_desc (x : string * nat) (l : list (string * nat)) :=
  match l with
  | [] => [x]
  | y :: l' => if snd x <=? snd y then y :: insert_desc x l' else x :: l
  end.

Definition sort_desc (l : list (string * nat)) : list (string * nat) :=
  fold_left (fun acc x => insert_desc x acc) l [].

(** The [keyword_matches] list: a keyword is appended when one of its
    patterns occurs (the inner loop [break]s at the first). *)
Definition keyword_matches (text : string) : list string :=
  flat_map (fun '(kw, patterns) =>
              if existsb (fun p => contains p text) patterns then [kw] else [])
           KEYWORD_PATTERNS.

(** The domain fallback of [tag_entry]. *)
Definition fallback_theme (domain : string) : string :=
  if contains "supreme" domain || contains "scotus" domain then "justice"
  else if existsb (fun gov => contains gov domain) [".gov"; "whitehouse"]
  then "government"
  else "government".

(** No pattern of any theme occurs in [text]. *)
Definition no_theme_pattern (text : string) : bool :=
  forallb (fun tp => forallb (fun p => negb (contains p text)) (snd tp)) THEMES.

Section WithSetOrder.
(** [list(set(xs))]: the iteration order of a Python set of strings
    depends on string hashing; it is left as a parameter. *)
Variable set_list : list string -> list string.

Definition themes_text (text : string) : list string :=
  firstn 2 (map fst (sort_desc
    (theme_scores_of (score_with (fun p => contains p text) (fun _ => 1)) THEMES))).

(** [tag_entry]; [None] is the [ValueError] of [urlparse]. *)
Definition tag_entry (e : NewsEntry) : option NewsEntry :=
  let text := lower (url e ++ " " ++ title e) in
  let ths := themes_text text in
  let kws := firstn 3 (set_list (keyword_matches text)) in
  match ths with
  | [] =>
      match Url.netloc (url e) with
      | None => None
      | Some domain =>
          Some (mkEntry (id e) (url e) (title e) (date e)
                  [fallback_theme domain] kws (content_snippet e))
      end
  | _ => Some (mkEntry (id e) (url e) (title e) (date e) ths kws
                       (content_snippet e))
  end.

Definition themes_enriched (combined content_low : string) : list string :=
  firstn 2 (map fst (sort_desc
    (theme_scores_of
       (score_with (fun p => contains p combined)
                   (fun p => if contains p content_low then 2 else 1)) THEMES))).

(** [tag_entry_with_content]. *)
Definition tag_entry_with_content (e : NewsEntry) (content : string) : NewsEntry :=
  let combined := lower (url e ++ " " ++ title e ++ " " ++ content) in
  let ths := themes_enriched combined (lower content) in
  let kws := firstn 3 (set_list (keyword_matches combined)) in
  mkEntry (id e) (url e) (title e) (date e) ths kws (content_snippet e).
End WithSetOrder.
End Classifier.

(* ------------------------------------------------------------------ *)
(** ** The DateExtractor: [extract_date]

    The three patterns, each searched with [re.search] (leftmost match):
    - [/(\d{4})/(\d{1,2})/(\d{1,2})/]
    - [/(\d{4})-(\d{2})-(\d{2})]
    - [(\d{4})(\d{2})(\d{2})]
    A matcher reads a pattern at the head of a string and returns the three
    groups converted by [int]. *)

Module DateExtractor.
Local Open Scope Z_scope.

Definition digits2 (a b : ascii) : Z := 10 * digit_val a + digit_val b.
Definition digits4 (a b c d : ascii) : Z :=
  1000 * digit_val a + 100 * digit_val b + 10 * digit_val c + digit_val d.

(** [\d{4}] at the head. *)
Definition m_d4 (s : string) : option (Z * string) :=
  match s with
  | String a (String b (String c (String d r))) =>
      if is_digit a && is_digit b && is_digit c && is_digit d
      then Some (digits4 a b c d, r) else None
  | _ => None
  end.

(** [\d{2}] at the head. *)
Definition m_d2 (s : string) : option (Z * string) :=
  match s with
  | String a (String b r) =>
      if is_digit a && is_digit b then Some (digits2 a b, r) else None
  | _ => None
  end.

(** A literal character at the head. *)
Definition m_chr (ch : ascii) (s : string) : option string :=
  match s with
  | String c r => if Ascii.eqb c ch then Some r else None
  | EmptyString => None
  end.

(** [(\d{1,2})/]: greedy, two digits first, then one digit. *)
Definition m_d12_slash (s : string) : option (Z * string) :=
  match s with
  | String a (String b (String "/" r)) =>
      if is_digit a && is_digit b then Some (digits2 a b, r)
      else if is_digit a && Ascii.eqb b "/" then Some (digit_val a, String "/" r)
      else None
  | String a (String "/" r) =>
      if is_digit a then Some (digit_val a, r) else None
  | _ => None
  end.

Definition m_pat1 (s : string) : option (Z * Z * Z) :=
  r1 ← m_chr "/" s;
  '(y, r2) ← m_d4 r1;
  r3 ← m_chr "/" r2;
  '(mo, r4) ← m_d12_slash r3;
  '(d, _) ← m_d12_slash r4;
  Some (y, mo, d).

Definition m_pat2 (s : string) : option (Z * Z * Z) :=
  r1 ← m_chr "/" s;
  '(y, r2) ← m_d4 r1;
  r3 ← m_chr "-" r2;
  '(mo, r4) ← m_d2 r3;
  r5 ← m_chr "-" r4;
  '(d, _) ← m_d2 r5;
  Some (y, mo, d).

Definition m_pat3 (s : string) : option (Z * Z * Z) :=
  '(y, r1) ← m_d4 s;
  '(mo, r2) ← m_d2 r1;
  '(d, _) ← m_d2 r2;
  Some (y, mo, d).

(** [re.search]: the match at the leftmost position where there is one. *)
Fixpoint search {A} (m : string -> option A) (s : string) : option A :=
  match m s with
  | Some r => Some r
  | None => match s with
            | EmptyString => None
            | String _ s' => search m s'
            end
  end.

Definition patterns : list (string -> option (Z * Z * Z)) := [m_pat1; m_pat2; m_pat3].

Definition plausible (c : Z * Z * Z) : bool :=
  let '(y, mo, d) := c in
  (2024 <=? y) && (y <=? 2026) && (1 <=? mo) && (mo <=? 12) && (1 <=? d) && (d <=? 31).

(** [f"{year:04d}-{month:02d}-{day:02d}"]. *)
Definition format_date (c : Z * Z * Z) : string :=
  let '(y, mo, d) := c in
  pad0 4 y ++ "-" ++ pad0 2 mo ++ "-" ++ pad0 2 d.

(** The [for pattern in patterns] loop: a match that fails the range
    check falls through to the next pattern. *)
Fixpoint try_patterns (ps : list (string -> option (Z * Z * Z))) (u : string)
    : option string :=
  match ps with
  | [] => None
  | p :: ps' =>
      match search p u with
      | Some c => if plausible c then Some (format_date c) else try_patterns ps' u
      | None => try_patterns ps' u
      end
  end.

Definition extract_date (u : string) : option string := try_patterns patterns u.

(** The reading "the first structurally matching pattern wins": its
    candidate decides, and a candidate failing the range check gives none. *)
Definition extract_date_first_wins (u : string) : option string :=
  let fix go (ps : list (string -> option (Z * Z * Z))) :=
    match ps with
    | [] => None
    | p :: ps' =>
        match search p u with
        | Some c => if plausible c then Some (format_date c) else None
        | None => go ps'
        end
    end in
  go patterns.
End DateExtractor.

(* ------------------------------------------------------------------ *)
(** ** The EntryParser: [parse_input_file]

    [f.readlines()] in text mode first translates [\r\n] and [\r] to [\n]
    (universal newlines) and then splits after each [\n]. Each line is
    stripped and matched with
    [re.match(r'^\d+\.\s*<a href="([^"]+)">([^<]+)</a>', ...)]. The greedy
    classes [\d+], [\s*], [[^"]+] and [[^<]+] are each followed by a
    character outside the class, so the match never backtracks into them. *)

Module EntryParser.
Local Open Scope nat_scope.

Fixpoint universal_newlines (s : string) : string :=
  match s with
  | EmptyString => EmptyString
  | String c s' =>
      if Ascii.eqb c "013"%char then
        match s' with
        | String d s'' =>
            if Ascii.eqb d "010"%char then String "010"%char (universal_newlines s'')
            else String "010"%char (universal_newlines s')
        | EmptyString => String "010"%char EmptyString
        end
      else String c (universal_newlines s')
  end.

(** Splitting after each newline; a last line without a newline is kept,
    an empty remainder is not a line. *)
Fixpoint split_lines_aux (cur : string) (s : string) : list string :=
  match s with
  | EmptyString => match cur with EmptyString => [] | _ => [rev_string cur] end
  | String c s' =>
      if Ascii.eqb c "010"%char then rev_string (String c cur) :: split_lines_aux EmptyString s'
      else split_lines_aux (String c cur) s'
  end.

Definition readlines (text : string) : list string :=
  split_lines_aux EmptyString (universal_newlines text).

(** The longest prefix of characters satisfying [f]. *)
Fixpoint span (f : ascii -> bool) (s : string) : string * string :=
  match s with
  | String c s' =>
      if f c then let '(a, b) := span f s' in (String c a, b) else (EmptyString, s)
  | EmptyString => (EmptyString, EmptyString)
  end.

Fixpoint m_lit (lit s : string) : option string :=
  match lit, s with
  | EmptyString, _ => Some s
  | String a lit', String b s' => if Ascii.eqb a b then m_lit lit' s' else None
  | String _ _, EmptyString => None
  end.

(** One or more characters satisfying [f] ([c+]). *)
Definition m_plus (f : ascii -> bool) (s : string) : option (string * string) :=
  match span f s with
  | (EmptyString, _) => None
  | r => Some r
  end.

(** The double-quote character. *)
Definition dq : ascii := "034"%char.

Definition m_line (s : string) : option (string * string) :=
  '(_, r1) ← m_plus is_digit s;
  r2 ← m_lit "." r1;
  let r3 := snd (span is_space r2) in
  r4 ← m_lit ("<a href=" ++ String dq EmptyString) r3;
  '(u, r5) ← m_plus (fun c => negb (Ascii.eqb c dq)) r4;
  r6 ← m_lit (String dq ">") r5;
  '(t, r7) ← m_plus (fun c => negb (Ascii.eqb c "<")) r6;
  _ ← m_lit "</a>" r7;
  Some (u, t).

(** The loop [for i, line in enumerate(lines, 1)]; a line that does not
    match is skipped (with a warning). *)
Fixpoint parse_lines (i : nat) (lines : list string) : list NewsEntry :=
  match lines with
  | [] => []
  | line :: rest =>
      match m_line (strip line) with
      | Some (u, t) =>
          mkEntry i u t (DateExtractor.extract_date u) [] [] None :: parse_lines (S i) rest
      | None => parse_lines (S i) rest
      end
  end.

Definition parse_input_file (text : string) : list NewsEntry :=
  parse_lines 1 (readlines text).

(** A line is kept by the parser. *)
Definition parses (l : string) : bool :=
  match m_line (strip l) with Some _ => true | None => false end.
End EntryParser.

(* ------------------------------------------------------------------ *)
(** ** The ContentEnricher: [fetch_bluesky_content] and
    [process_bluesky_entries]

    The network and the HTML parser are inputs. A GET either raises (a
    connection error or the 10 s timeout) or yields a status and a body;
    reading the body ([await response.text()]) may itself raise, here a
    body of [None]. A parsed page answers [soup.select_one] for each of
    the four selectors of the source. *)

Module Enricher.
Local Open Scope nat_scope.

(** The selectors, in the order of [content_selectors]:
    [div[data-testid="postText"]], [div.post-content], [div[class*="post"]]
    and [meta[property="og:description"]]. *)
Inductive Selector := PostText | PostContent | ClassPost | OgDescription.

Definition content_selectors : list Selector :=
  [PostText; PostContent; ClassPost; OgDescription].

(** A tag found by [select_one]: its name, its [content] attribute and
    its [get_text()]. A bs4 [Tag] is always truthy. *)
Record Element := mkElement {
  el_name : string;
  el_content : option string;
  el_text : string
}.

Definition Soup := Selector -> option Element.

Inductive HttpOutcome :=
| NetError                                (* raised by [session.get] *)
| Response (status : Z) (body : option Soup).

(** The per-run state: [self.bluesky_content_cache] and the log of the
    GET requests issued. *)
Record State := mkState {
  cache : gmap string string;
  requests : list string
}.

(** The [for selector in content_selectors] loop. [None] for an
    exception ([None[:500]] when a [meta] tag has no [content]),
    [Some None] when no selector matches, [Some (Some c)] on success. *)
Fixpoint select_content (soup : Soup) (sels : list Selector)
    : option (option string) :=
  match sels with
  | [] => Some None
  | sel :: rest =>
      match soup sel with
      | Some el =>
          if String.eqb (el_name el) "meta" then
            match el_content el with
            | Some c => Some (Some (str_take 500 c))
            | None => None
            end
          else Some (Some (str_take 500 (el_text el)))
      | None => select_content soup rest
      end
  end.

(** [fetch_bluesky_content]: a cache hit returns the cached text with no
    request; otherwise one GET is issued, and only a successful
    extraction is written to the cache. Every failure returns [None]. *)
Definition fetch_bluesky_content (st : State) (u : string) (net : HttpOutcome)
    : option string * State :=
  match cache st !! u with
  | Some v => (Some v, st)
  | None =>
      let st1 := mkState (cache st) (requests st ++ [u]) in
      match net with
      | NetError => (None, st1)
      | Response status body =>
          if (status =? 200)%Z then
            match body with
            | None => (None, st1)
            | Some soup =>
                match select_content soup content_selectors with
                | Some (Some c) => (Some c, mkState (<[u := c]> (cache st1)) (requests st1))
                | _ => (None, st1)
                end
            end
          else (None, st1)
      end
  end.

(** [if content:]: [None] and the empty string are falsy. *)
Definition truthy (c : option string) : bool :=
  match c with
  | Some s => negb (String.eqb s EmptyString)
  | None => false
  end.

(** ['bsky.app' in e.url]. *)
Definition is_bluesky (e : NewsEntry) : bool := contains "bsky.app" (url e).

(** The positions in [self.entries] of the entries of [bluesky_entries]:
    the list comprehension keeps references to the same [NewsEntry]
    objects, so the updates below land in [self.entries]. *)
Definition bluesky_indices (entries : list NewsEntry) : list nat :=
  List.filter (fun i => match entries !! i with Some e => is_bluesky e | None => false end)
         (seq 0 (List.length entries)).

(** [asyncio.gather] over one fetch task per Bluesky entry. Each task
    checks the cache before its first suspension, so every task sees the
    cache as it was when the batch started; [net k] is the network
    outcome of the [k]-th task. *)
Fixpoint gather_contents (st0 : State) (entries : list NewsEntry)
    (net : nat -> HttpOutcome) (k : nat) (idxs : list nat) : list (option string) :=
  match idxs with
  | [] => []
  | i :: rest =>
      let u := match entries !! i with Some e => url e | None => EmptyString end in
      fst (fetch_bluesky_content st0 u (net k))
        :: gather_contents st0 entries net (S k) rest
  end.

Section WithSetOrder.
Variable set_list : list string -> list string.

Definition enrich_entry (e : NewsEntry) (c : string) : NewsEntry :=
  Classifier.tag_entry_with_content set_list
    (mkEntry (id e) (url e) (title e) (date e) (themes e) (keywords e) (Some c)) c.

(** The [for entry, content in zip(bluesky_entries, contents)] loop. *)
Fixpoint apply_contents (entries : list NewsEntry) (idxs : list nat)
    (contents : list (option string)) : list NewsEntry :=
  match idxs, contents with
  | i :: idxs', c :: contents' =>
      let entries' :=
        match c, entries !! i with
        | Some s, Some e => if truthy c then <[i := enrich_entry e s]> entries else entries
        | _, _ => entries
        end in
      apply_contents entries' idxs' contents'
  | _, _ => entries
  end.

Definition process_bluesky_entries (st0 : State) (net : nat -> HttpOutcome)
    (entries : list NewsEntry) : list NewsEntry :=
  let idxs := bluesky_indices entries in
  match idxs with
  | [] => entries
  | _ => apply_contents entries idxs (gather_contents st0 entries net 0 idxs)
  end.
End WithSetOrder.

(** [sum(1 for e in self.entries if 'bsky.app' in e.url)] of
    [print_statistics]. *)
Definition bluesky_count (entries : list NewsEntry) : nat :=
  List.length (List.filter is_bluesky entries).

Definition has_snippet (e : NewsEntry) : bool :=
  match content_snippet e with Some _ => true | None => false end.
End Enricher.

(* ------------------------------------------------------------------ *)
(** ** summary_generator.py: [generate_theme_summary_with_claude] and
    [generate_fallback_summary]

    An entry of the loaded dataset is a JSON object; the fields read here
    are ['title'] and ['url'] (subscripted, so a missing one raises
    [KeyError]) and ['keywords'] (read with [.get(..., [])]). *)

Module Summary.
Local Open Scope nat_scope.

Record SEntry := mkSEntry {
  s_title : option string;
  s_url : option string;
  s_keywords : list string
}.

Inductive Exn := KeyError (key : string).

(** A computation that returns a value or raises. *)
Inductive Result (A : Type) := Ok (a : A) | Raise (e : Exn).
Arguments Ok {A} a.
Arguments Raise {A} e.

Definition bind {A B} (r : Result A) (k : A -> Result B) : Result B :=
  match r with Ok a => k a | Raise e => Raise e end.

Notation "'let!' x ':=' r 'in' k" := (bind r (fun x => k))
  (at level 200, x name, r at level 100, k at level 200).

Definition subscript {A} (key : string) (v : option A) : Result A :=
  match v with Some a => Ok a | None => Raise (KeyError key) end.

(** The entry carries a ['title'] and a ['url']. *)
Definition well_formed (e : SEntry) : Prop := s_title e <> None /\ s_url e <> None.

Record ThemeInfo := mkInfo { ti_title : string; ti_priority : nat; ti_description : string }.

Definition THEME_INFO : list (string * ThemeInfo) := [
  ("government", mkInfo "Federal Workforce Restructuring and Government Operations" 1
     "Systematic restructuring of federal agencies, mass layoffs, and the Department of Government Efficiency (DOGE) initiatives");
  ("immigration", mkInfo "Immigration Enforcement and Deportation Operations" 2
     "Border enforcement, deportation operations, visa policies, and treatment of refugees and asylum seekers");
  ("science", mkInfo "Scientific Research and Space Programs" 3
     "Changes to NSF, NASA, climate research, and federal research funding");
  ("health", mkInfo "Healthcare Policy and Public Health" 4
     "CDC policies, vaccine programs, NIH research, and public health infrastructure");
  ("education", mkInfo "Educational Institutions and Academic Freedom" 5
     "University funding, DEI elimination, student visas, and academic research");
  ("justice", mkInfo "Justice Department and Law Enforcement" 6
     "DOJ transformation, FBI changes, prosecutorial decisions, and judicial relations");
  ("economy", mkInfo "Economic Policy and Financial Markets" 7
     "Tax policies, cryptocurrency, stock market regulations, and federal budget");
  ("trade", mkInfo "Trade Policy and Tariffs" 8
     "Import tariffs, trade agreements, and international commerce");
  ("foreign-affairs", mkInfo "Foreign Policy and International Relations" 9
     "Relations with allies and adversaries, military aid, and diplomatic initiatives");
  ("environment", mkInfo "Environmental Deregulation and Resource Extraction" 10
     "EPA changes, climate policy rollbacks, and natural resource exploitation");
  ("human-rights", mkInfo "Civil Rights and Social Policy" 11
     "LGBTQ+ rights, religious freedom, reproductive rights, and discrimination policies");
  ("civil-society", mkInfo "Democratic Institutions and Civil Society" 12
     "Voting rights, democratic norms, civil society organizations, and constitutional issues")
].

Fixpoint assoc {A} (k : string) (l : list (string * A)) : option A :=
  match l with
  | [] => None
  | (k', v) :: l' => if String.eqb k k' then Some v else assoc k l'
  end.

Definition nl : string := String "010"%char EmptyString.
Definition q : string := String "034"%char EmptyString.

(** The [keyword_groups] defaultdict, in insertion order, holding the
    size of each group. *)
Fixpoint bump (k : string) (g : list (string * nat)) : list (string * nat) :=
  match g with
  | [] => [(k, 1)]
  | (k', n) :: g' => if String.eqb k k' then (k', S n) :: g' else (k', n) :: bump k g'
  end.

Definition keyword_groups (entries : list SEntry) : list (string * nat) :=
  fold_left (fun g e => fold_left (fun g' kw => bump kw g') (s_keywords e) g) entries [].

Fixpoint join (sep : string) (l : list string) : string :=
  match l with
  | [] => EmptyString
  | [x] => x
  | x :: l' => x ++ sep ++ join sep l'
  end.

(** [s.rstrip('; ')]. *)
Definition rstrip_semi_space (s : string) : string :=
  let fix go (l : list ascii) :=
    match l with
    | c :: l' => if Ascii.eqb c ";" || Ascii.eqb c " " then go l' else l
    | [] => []
    end in
  string_of_list_ascii (rev (go (rev (list_ascii_of_string s)))).

Fixpoint sample_links (es : list SEntry) : Result string :=
  match es with
  | [] => Ok EmptyString
  | e :: es' =>
      let! u := subscript "url" (s_url e) in
      let! t := subscript "title" (s_title e) in
      let! rest := sample_links es' in
      Ok ("<a href=" ++ q ++ u ++ q ++ ">" ++ t ++ "</a>; " ++ rest)
  end.

Definition generate_fallback_summary (theme : string) (entries : list SEntry)
    : Result string :=
  let! info := subscript theme (assoc theme THEME_INFO) in
  let groups := keyword_groups entries in
  let s1 := "<p>The administration implemented significant changes in "
            ++ lower (ti_description info) ++ ". " in
  let s2 := s1 ++ "This section documents " ++ z_to_string (Z.of_nat (List.length entries))
            ++ " articles tracking these developments.</p>" ++ nl ++ nl in
  let s3 := match groups with
            | [] => s2
            | _ =>
                let top := firstn 3 (Classifier.sort_desc groups) in
                s2 ++ "<p>Key areas of focus included "
                   ++ join ", " (map (fun '(k, n) => k ++ " (" ++ z_to_string (Z.of_nat n)
                                                     ++ " articles)") top)
                   ++ ".</p>" ++ nl ++ nl
            end in
  let! links := sample_links (firstn 5 entries) in
  Ok (rstrip_semi_space (s3 ++ "<p>Notable developments included: " ++ links) ++ ".</p>").

(** The text-generation service as seen by the code: the [session.post]
    either raises, or answers with a status and a JSON body from which
    [data['content'][0]['text']] is either read ([Some]) or raises. *)
Inductive ApiOutcome :=
| TransportError
| ApiResponse (status : Z) (text : option string).

Fixpoint entry_texts (es : list SEntry) : Result (list string) :=
  match es with
  | [] => Ok []
  | e :: es' =>
      let! t := subscript "title" (s_title e) in
      let! u := subscript "url" (s_url e) in
      let! rest := entry_texts es' in
      Ok (("- " ++ t ++ " (" ++ u ++ ")") :: rest)
  end.

Definition build_prompt (info : ThemeInfo) (texts : list string) : string :=
  "You are creating a summary for a historical archive of the Trump administration's policies."
  ++ nl ++ nl ++ "Theme: " ++ ti_title info ++ nl ++ "Description: " ++ ti_description info
  ++ nl ++ nl ++ "Based on these news articles about this theme, write 2-3 paragraphs summarizing the key developments and their significance. Be factual, precise, and cite specific examples from the articles. Each paragraph should be 3-4 sentences."
  ++ nl ++ nl ++ "Articles:" ++ nl ++ join nl texts
  ++ nl ++ nl ++ "IMPORTANT: " ++ nl ++ "- Be completely factual and accurate"
  ++ nl ++ "- Reference specific articles when making claims"
  ++ nl ++ "- Avoid speculation or editorializing"
  ++ nl ++ "- Focus on documenting what happened according to the sources"
  ++ nl ++ "- Write in past tense as this is a historical record".

(** [generate_theme_summary_with_claude]; [api_key] is
    [os.getenv('ANTHROPIC_API_KEY')] and [api] the service, a function of
    the prompt. The prompt is built before the [try]; inside it, every
    exception leads to the [except] branch and the fallback. *)
Definition generate_theme_summary_with_claude (api_key : option string)
    (api : string -> ApiOutcome) (theme : string) (entries : list SEntry)
    : Result string :=
  match api_key with
  | None => generate_fallback_summary theme entries
  | Some k =>
      if String.eqb k EmptyString then generate_fallback_summary theme entries
      else
        let! texts := entry_texts (firstn 20 entries) in
        let! info := subscript theme (assoc theme THEME_INFO) in
        let prompt := build_prompt info texts in
        let in_try :=
          match api prompt with
          | TransportError => None
          | ApiResponse status txt =>
              if (status =? 200)%Z then
                match txt with Some t => Some (Ok t) | None => None end
              else Some (generate_fallback_summary theme entries)
          end in
        match in_try with
        | Some (Ok t) => Ok t
        | Some (Raise _) | None => generate_fallback_summary theme entries
        end
  end.
End Summary.

(* ------------------------------------------------------------------ *)
(** ** process_diary.py: [process], [generate_json_data] and
    [print_statistics] *)

Module Pipeline.
Import Classifier Enricher.
Local Open Scope nat_scope.

Section WithSetOrder.
Variable set_list : list string -> list string.

(** The loop [for entry in self.entries: self.tag_entry(entry)]; the
    [ValueError] of one call ends [process]. *)
Fixpoint tag_all (es : list NewsEntry) : option (list NewsEntry) :=
  match es with
  | [] => Some []
  | e :: es' =>
      e' ← tag_entry set_list e;
      rest ← tag_all es';
      Some (e' :: rest)
  end.

(** The ['metadata'] of [generate_json_data]; [generated] is
    [datetime.now().isoformat()]. *)
Record Metadata := mkMetadata {
  generated : string;
  total_entries : nat;
  meta_themes : list string;
  meta_keywords : list string
}.

(** [generate_json_data]; [asdict(entry)] keeps every field of the entry. *)
Definition generate_json_data (now : string) (entries : list NewsEntry)
    : Metadata * list NewsEntry :=
  (mkMetadata now (List.length entries) (map fst THEMES) (map fst KEYWORD_PATTERNS), entries).

(** [process]: parse, tag every entry, enrich the Bluesky entries (the
    processor starts with an empty content cache) and build the data;
    [None] is the [ValueError] of a tagging. Saving the files and printing
    the statistics do not change the data returned. *)
Definition process (now : string) (net : nat -> HttpOutcome) (text : string)
    : option (Metadata * list NewsEntry) :=
  let entries := EntryParser.parse_input_file text in
  tagged ← tag_all entries;
  let enriched := process_bluesky_entries set_list (mkState ∅ []) net tagged in
  Some (generate_json_data now enriched).
End WithSetOrder.

(** The [theme_counts] and [keyword_counts] dicts of [print_statistics],
    filled with [d[k] = d.get(k, 0) + 1] in insertion order. *)
Definition count_tags (entries : list NewsEntry) : list (string * nat) * list (string * nat) :=
  fold_left (fun '(tc, kc) e =>
               (fold_left (fun m t => Summary.bump t m) (themes e) tc,
                fold_left (fun m k => Summary.bump k m) (keywords e) kc))
            entries ([], []).

Definition stat_row (x : string * nat) : string :=
  "  " ++ fst x ++ ": " ++ z_to_string (Z.of_nat (snd x)).

(** The lines printed by [print_statistics]. *)
Definition print_statistics (entries : list NewsEntry) : list string :=
  let '(theme_counts, keyword_counts) := count_tags entries in
  [Summary.nl ++ "=== Processing Statistics ===";
   "Total entries: " ++ z_to_string (Z.of_nat (List.length entries));
   "Entries with dates: "
     ++ z_to_string (Z.of_nat (List.length (List.filter (fun e => truthy (date e)) entries)));
   "Bluesky entries: " ++ z_to_string (Z.of_nat (bluesky_count entries));
   Summary.nl ++ "=== Theme Distribution ==="]
  ++ map stat_row (sort_desc theme_counts)
  ++ [Summary.nl ++ "=== Top Keywords ==="]
  ++ map stat_row (firstn 15 (sort_desc keyword_counts)).
End Pipeline.

(* ------------------------------------------------------------------ *)
(** ** summary_generator.py: [organize_entries_by_theme],
    [generate_summaries] and [generate_summary_html]

    An entry of the loaded data as read here: its ['themes'] (subscripted,
    so a missing key raises [KeyError]) and the fields the summaries read. *)

Module SummaryPage.
Import Summary.
Local Open Scope nat_scope.

Record JEntry := mkJEntry {
  j_themes : option (list string);
  j_fields : SEntry
}.

(** [themed_entries[k].append(e)] on the [defaultdict(list)], in
    insertion order. *)
Fixpoint group_append (k : string) (e : SEntry) (g : list (string * list SEntry))
    : list (string * list SEntry) :=
  match g with
  | [] => [(k, [e])]
  | (k', es) :: g' =>
      if String.eqb k k' then (k', app es [e]) :: g' else (k', es) :: group_append k e g'
  end.

(** The loop of [organize_entries_by_theme]: an entry whose themes are
    empty is skipped, any other goes to the group of its first theme. *)
Fixpoint organize_aux (g : list (string * list SEntry)) (data : list JEntry)
    : Result (list (string * list SEntry)) :=
  match data with
  | [] => Ok g
  | je :: rest =>
      let! ths := subscript "themes" (j_themes je) in
      match ths with
      | [] => organize_aux g rest
      | t :: _ => organize_aux (group_append t (j_fields je) g) rest
      end
  end.

Definition organize_entries_by_theme (data : list JEntry) : Result (list (string * list SEntry)) :=
  organize_aux [] data.

(** The loop [for theme in THEME_INFO.keys()] of [generate_summaries]. *)
Fixpoint summaries_over (use_claude_api : bool) (api_key : option string)
    (api : string -> ApiOutcome) (themed : list (string * list SEntry)) (keys : list string)
    : Result (list (string * string)) :=
  match keys with
  | [] => Ok []
  | theme :: rest =>
      match assoc theme themed with
      | Some entries =>
          let! summary := if use_claude_api
                          then generate_theme_summary_with_claude api_key api theme entries
                          else generate_fallback_summary theme entries in
          let! more := summaries_over use_claude_api api_key api themed rest in
          Ok ((theme, summary) :: more)
      | None => summaries_over use_claude_api api_key api themed rest
      end
  end.

Definition generate_summaries (use_claude_api : bool) (api_key : option string)
    (api : string -> ApiOutcome) (data : list JEntry) : Result (list (string * string)) :=
  let! themed := organize_entries_by_theme data in
  summaries_over use_claude_api api_key api themed (map fst THEME_INFO).

(** [sorted(..., key=lambda x: x[1]['priority'])], a stable sort, by
    insertion: each item goes after the items of a priority at most its
    own. *)
Fixpoint insert_prio (x : string * ThemeInfo) (l : list (string * ThemeInfo))
    : list (string * ThemeInfo) :=
  match l with
  | [] => [x]
  | y :: l' =>
      if ti_priority (snd y) <=? ti_priority (snd x) then y :: insert_prio x l' else x :: l
  end.

Definition sort_by_priority (l : list (string * ThemeInfo)) : list (string * ThemeInfo) :=
  fold_left (fun acc x => insert_prio x acc) l [].

(** [k in summaries]. *)
Definition has_key {A} (k : string) (d : list (string * A)) : bool :=
  match assoc k d with Some _ => true | None => false end.

Definition sorted_themes (summaries : list (string * string)) : list (string * ThemeInfo) :=
  sort_by_priority (List.filter (fun kv => has_key (fst kv) summaries) THEME_INFO).



Section Page.
(** The literal text of the page, which does not depend on the data:
    [page_head] runs from [<!DOCTYPE html>] up to the article count of
    the introduction, [page_intro] from there to the opening of the
    contents list; [today] is [datetime.now().strftime('%B %d, %Y')]. *)
Variables page_head page_intro today : string.


End Page.
End SummaryPage.

(* ------------------------------------------------------------------ *)
(** ** master_pipeline.py: [run_pipeline]

    Step 1 writes the data with [json.dump]; step 3 reads it back with
    [json.load], which gives the same strings and lists. The index page of
    step 2 is a fixed template and does not read the entries. *)

Module MasterPipeline.
Import Summary SummaryPage.

(** An entry as [asdict] writes it and [json.load] reads it back. *)
Definition to_json_entry (e : NewsEntry) : JEntry :=
  mkJEntry (Some (themes e)) (mkSEntry (Some (title e)) (Some (url e)) (keywords e)).

End MasterPipeline.


(* ------------------------------------------------------------------ *)
(** ** Concrete runs

    Two Bluesky entries and one news-site entry after initial tagging; the
    first post's page has a [postText] div, the second fetch times out. *)

Module Scenarios.
Import Enricher.

(** A set order for [list(set(xs))]: first occurrences, in order. *)
Definition sc_set_list : list string -> list string := List.nodup string_dec.

Definition sc_e1 : NewsEntry :=
  mkEntry 1 "https://bsky.app/profile/x/post/1" "hello" None ["government"] [] None.
Definition sc_e2 : NewsEntry :=
  mkEntry 2 "https://bsky.app/profile/y/post/2" "talk" None ["government"] [] None.
Definition sc_e3 : NewsEntry :=
  mkEntry 3 "https://example.gov/2025/01/15/nsf-budget-cuts" "NSF budget cuts announced"
    (Some "2025-01-15") ["science"; "economy"] ["nsf"] None.
Definition sc_entries : list NewsEntry := [sc_e1; sc_e2; sc_e3].

Definition sc_soup : Soup := fun sel =>
  match sel with
  | PostText => Some (mkElement "div" None "nasa climate research")
  | _ => None
  end.

Definition sc_net (k : nat) : HttpOutcome :=
  match k with O => Response 200 (Some sc_soup) | S _ => NetError end.

Definition sc_st : State := mkState ∅ [].

Definition sc_sentries : list Summary.SEntry :=
  [Summary.mkSEntry (Some "NSF budget cuts announced")
     (Some "https://example.gov/2025/01/15/nsf-budget-cuts") ["nsf"]].
End Scenarios.

(* ------------------------------------------------------------------ *)
(** ** Invariants of the processed data *)

Module Invariants.
Import Enricher.
Local Open Scope nat_scope.

(** The fields that no tagging and no enrichment changes. *)
Definition same_fields (p e : NewsEntry) : Prop :=
  id e = id p /\ url e = url p /\ title e = title p /\ date e = date p.

(** The tags of an entry: distinct [THEMES] keys as themes and
    [KEYWORD_PATTERNS] keys as keywords. *)
Definition tags_ok (e : NewsEntry) : Prop :=
  NoDup (themes e) /\ Forall (fun t => In t (map fst THEMES)) (themes e) /\
  Forall (fun k => In k (map fst KEYWORD_PATTERNS)) (keywords e).

(** An entry of the data [process] returns. *)
Definition processed_ok (e : NewsEntry) : Prop :=
  tags_ok e /\
  (content_snippet e = None -> themes e <> []) /\
  (forall s, content_snippet e = Some s ->
     is_bluesky e = true /\ s <> EmptyString /\ String.length s <= 500).
End Invariants.

(* ------------------------------------------------------------------ *)
(** ** Further concrete inputs

    A two-line diary (a Bluesky post and a news article), a post page
    whose [postText] div is empty, and the article data as the summary
    generator reads it back. *)

Module ExtraScenarios.
Import Enricher Scenarios.

Definition xs_line1 : string :=
  "1. <a href=" ++ String EntryParser.dq ("https://bsky.app/profile/x/post/1"
  ++ String EntryParser.dq ">hello</a>").

Definition xs_line2 : string :=
  "2. <a href=" ++ String EntryParser.dq ("https://example.gov/2025/01/15/nsf-budget-cuts"
  ++ String EntryParser.dq ">NSF budget cuts announced</a>").

Definition xs_text : string := xs_line1 ++ Summary.nl ++ xs_line2 ++ Summary.nl.

Definition xs_e2 : NewsEntry :=
  mkEntry 2 "https://example.gov/2025/01/15/nsf-budget-cuts" "NSF budget cuts announced"
    (Some "2025-01-15") [] [] None.

Definition xs_empty_soup : Soup := fun sel =>
  match sel with
  | PostText => Some (mkElement "div" None EmptyString)
  | _ => None
  end.

Definition xs_data : list SummaryPage.JEntry :=
  map MasterPipeline.to_json_entry [sc_e1; sc_e3].
End ExtraScenarios.

(* ================================================================== *)
(** * Properties *)

(* ------------------------------------------------------------------ *)
(** ** The stable descending sort *)

Module SortFacts.
Import Classifier.
Local Open Scope nat_scope.
Local Open Scope list_scope.

Definition desc (a b : string * nat) : Prop := snd b <= snd a.

Definition with_key (k : nat) (l : list (string * nat)) : list (string * nat) :=
  List.filter (fun x => snd x =? k) l.

Lemma insert_desc_perm x l : Permutation (insert_desc x l) (x :: l).
Proof.
  induction l as [|y l IH]; simpl; [reflexivity|].
  destruct (snd x <=? snd y); [|reflexivity].
  rewrite IH. apply perm_swap.
Qed.

Lemma insert_desc_sorted x l :
  StronglySorted desc l -> StronglySorted desc (insert_desc x l).
Proof.
  induction 1 as [|y l Hs IH Hall]; simpl.
  - repeat constructor.
  - destruct (snd x <=? snd y) eqn:E.
    + apply Nat.leb_le in E. constructor; [exact IH|].
      apply List.Forall_forall. intros z Hz.
      apply (Permutation_in _ (insert_desc_perm x l)) in Hz.
      destruct Hz as [<-|Hz]; [exact E|].
      exact (proj1 (List.Forall_forall _ _) Hall z Hz).
    + apply Nat.leb_gt in E. constructor; [constructor; assumption|].
      constructor; [unfold desc; lia|].
      apply List.Forall_forall. intros z Hz.
      pose proof (proj1 (List.Forall_forall _ _) Hall z Hz). unfold desc in *. lia.
Qed.

Lemma with_key_none k (l : list (string * nat)) :
  Forall (fun z => snd z <> k) l -> with_key k l = [].
Proof.
  induction 1 as [|z l Hz _ IH]; unfold with_key in *; simpl; [reflexivity|].
  replace (snd z =? k) with false by (symmetry; apply Nat.eqb_neq; exact Hz).
  exact IH.
Qed.

Lemma insert_desc_with_key k x l :
  StronglySorted desc l ->
  with_key k (insert_desc x l) = with_key k l ++ with_key k [x].
Proof.
  induction 1 as [|y l Hs IH Hall]; [reflexivity|].
  simpl insert_desc.
  destruct (snd x <=? snd y) eqn:E.
  - unfold with_key in *. simpl. rewrite IH. destruct (snd y =? k); reflexivity.
  - apply Nat.leb_gt in E.
    destruct (snd x =? k) eqn:Ex.
    + apply Nat.eqb_eq in Ex.
      assert (Hnone : with_key k (y :: l) = []).
      { apply with_key_none. constructor; [simpl; lia|].
        apply List.Forall_forall. intros z Hz.
        pose proof (proj1 (List.Forall_forall _ _) Hall z Hz) as Hd.
        unfold desc in Hd. lia. }
      assert (Hx : with_key k [x] = [x]) by (unfold with_key; simpl; rewrite Ex, Nat.eqb_refl; reflexivity).
      rewrite Hnone, Hx. unfold with_key in *. simpl in *. subst k. rewrite Nat.eqb_refl.
      rewrite Hnone. reflexivity.
    + unfold with_key. simpl. rewrite Ex, app_nil_r. reflexivity.
Qed.

Lemma fold_insert_props (l acc : list (string * nat)) :
  StronglySorted desc acc ->
  Permutation (fold_left (fun a x => insert_desc x a) l acc) (acc ++ l) /\
  StronglySorted desc (fold_left (fun a x => insert_desc x a) l acc) /\
  (forall k, with_key k (fold_left (fun a x => insert_desc x a) l acc)
             = with_key k acc ++ with_key k l).
Proof.
  revert acc. induction l as [|x l IH]; intros acc Hs; simpl.
  - rewrite app_nil_r. split; [reflexivity|]. split; [exact Hs|].
    intros k. rewrite app_nil_r. reflexivity.
  - destruct (IH (insert_desc x acc) (insert_desc_sorted x acc Hs)) as (Hp & Hs' & Hk).
    split; [|split; [exact Hs'|]].
    + rewrite Hp, insert_desc_perm. simpl.
      rewrite <- Permutation_middle. reflexivity.
    + intros k. rewrite Hk, insert_desc_with_key by exact Hs.
      unfold with_key. rewrite <- app_assoc. simpl. destruct (snd x =? k); reflexivity.
Qed.

(** The sort is a permutation, is sorted by descending score, and keeps
    the items of each score in their input order. *)
Lemma sort_desc_spec (l : list (string * nat)) :
  Permutation (sort_desc l) l /\
  Sorted desc (sort_desc l) /\
  (forall k, with_key k (sort_desc l) = with_key k l).
Proof.
  unfold sort_desc.
  destruct (fold_insert_props l [] (SSorted_nil _)) as (Hp & Hs & Hk).
  split; [exact Hp|]. split; [apply StronglySorted_Sorted; exact Hs|].
  intros k. rewrite Hk. reflexivity.
Qed.

Lemma theme_scores_of_filter score ths :
  theme_scores_of score ths
  = List.filter (fun ts => 0 <? snd ts) (map (fun tp => (fst tp, score (snd tp))) ths).
Proof.
  induction ths as [|[t ps] ths IH]; simpl; [reflexivity|].
  destruct (0 <? score ps); rewrite IH; reflexivity.
Qed.

Lemma score_with_count text ps :
  score_with (fun p => contains p text) (fun _ => 1) ps
  = List.length (List.filter (fun p => contains p text) ps).
Proof.
  unfold score_with.
  assert (H : forall acc, fold_left (fun acc p => if contains p text then acc + 1 else acc) ps acc
              = acc + List.length (List.filter (fun p => contains p text) ps)).
  { induction ps as [|p ps IH]; intros acc; simpl; [lia|].
    destruct (contains p text); simpl; rewrite IH; lia. }
  rewrite H. reflexivity.
Qed.
End SortFacts.

(* ------------------------------------------------------------------ *)
(** ** The Classifier *)

Module ClassifierFacts.
Import Classifier SortFacts.
Local Open Scope nat_scope.

Lemma theme_scores_text text :
  theme_scores_of (score_with (fun p => contains p text) (fun _ => 1)) THEMES
  = List.filter (fun ts => 0 <? snd ts)
      (map (fun tp => (fst tp, List.length (List.filter (fun p => contains p text) (snd tp))))
           THEMES).
Proof.
  rewrite theme_scores_of_filter. f_equal. apply map_ext. intros [t ps]. simpl.
  rewrite score_with_count. reflexivity.
Qed.

Lemma firstn_map_nonempty (l : list (string * nat)) :
  l <> [] -> firstn 2 (map fst l) <> [].
Proof. destruct l as [|x l]; simpl; congruence. Qed.

(** C4. Initial tagging scores each theme by the number of its patterns
    occurring in the lowercased URL+title (each pattern counting at most
    once), drops the themes scoring 0, ranks the rest by descending score
    with equal scores kept in [THEMES] order, and assigns the first two
    of that ranking. *)
Theorem tag_entry_theme_ranking (set_list : list string -> list string) (e : NewsEntry) :
  let text := lower (url e ++ " " ++ title e) in
  let positive := List.filter (fun ts => 0 <? snd ts)
        (map (fun tp => (fst tp, List.length (List.filter (fun p => contains p text) (snd tp))))
             THEMES) in
  exists ranked,
    Permutation ranked positive /\
    Sorted desc ranked /\
    (forall k, with_key k ranked = with_key k positive) /\
    (ranked <> [] ->
     exists e', tag_entry set_list e = Some e' /\ themes e' = firstn 2 (map fst ranked)).
Proof.
  intros text positive.
  destruct (sort_desc_spec positive) as (Hp & Hs & Hk).
  exists (sort_desc positive). split; [exact Hp|]. split; [exact Hs|]. split; [exact Hk|].
  intros Hne. unfold tag_entry, themes_text. fold text.
  rewrite theme_scores_text. fold positive.
  destruct (firstn 2 (map fst (sort_desc positive))) eqn:E.
  - exfalso. exact (firstn_map_nonempty _ Hne E).
  - eexists. split; [reflexivity|]. reflexivity.
Qed.

Section Cardinality.
Variable set_list : list string -> list string.
Hypothesis set_list_nodup : forall l, NoDup (set_list l).

Lemma firstn_nodup {A} n (l : list A) : NoDup l -> NoDup (firstn n l).
Proof.
  intros Hl. rewrite <- (firstn_skipn n l) in Hl.
  apply NoDup_app in Hl. exact (proj1 Hl).
Qed.

(** C7. Every tagging operation, the initial one and the enriched
    re-tagging, leaves at most 2 themes and at most 3 keywords, the
    keywords without duplicates. *)
Theorem tagging_cardinality (e : NewsEntry) :
  (forall e', tag_entry set_list e = Some e' ->
     List.length (themes e') <= 2 /\ List.length (keywords e') <= 3 /\ NoDup (keywords e')) /\
  (forall content, let e' := tag_entry_with_content set_list e content in
     List.length (themes e') <= 2 /\ List.length (keywords e') <= 3 /\ NoDup (keywords e')).
Proof.
  split.
  - intros e' H. unfold tag_entry in H.
    assert (Hlen : List.length (themes_text (lower (url e ++ " " ++ title e))) <= 2)
      by (unfold themes_text; apply firstn_le_length).
    destruct (themes_text _) as [|t ts] eqn:Ht.
    + destruct (Url.netloc (url e)); inversion H; subst; simpl.
      split; [lia|]. split; [apply firstn_le_length | apply firstn_nodup, set_list_nodup].
    + inversion H; subst; simpl.
      split; [exact Hlen|].
      split; [apply firstn_le_length | apply firstn_nodup, set_list_nodup].
  - intros content e'. subst e'. simpl. unfold themes_enriched.
    split; [apply firstn_le_length|].
    split; [apply firstn_le_length | apply firstn_nodup, set_list_nodup].
Qed.
End Cardinality.
End ClassifierFacts.

(* ------------------------------------------------------------------ *)
(** ** The ContentEnricher *)

Module EnricherFacts.
Import Enricher.
Local Open Scope nat_scope.
Local Open Scope list_scope.

Lemma bluesky_indices_nodup entries : List.NoDup (bluesky_indices entries).
Proof. unfold bluesky_indices. apply List.NoDup_filter, List.seq_NoDup. Qed.

Lemma bluesky_indices_spec entries i :
  In i (bluesky_indices entries) <->
  exists e, entries !! i = Some e /\ is_bluesky e = true.
Proof.
  unfold bluesky_indices. rewrite List.filter_In, List.in_seq. split.
  - intros [_ H]. destruct (entries !! i) as [e|] eqn:E; [|discriminate]. eauto.
  - intros (e & He & Hb). rewrite He. split; [|exact Hb].
    apply lookup_lt_Some in He. lia.
Qed.

Lemma gather_length st0 entries net k idxs :
  List.length (gather_contents st0 entries net k idxs) = List.length idxs.
Proof.
  revert k. induction idxs as [|i idxs IH]; intros k; simpl; [reflexivity|].
  rewrite IH. reflexivity.
Qed.

Lemma process_as_apply set_list st0 net entries :
  process_bluesky_entries set_list st0 net entries
  = apply_contents set_list entries (bluesky_indices entries)
      (gather_contents st0 entries net 0 (bluesky_indices entries)).
Proof.
  unfold process_bluesky_entries. destruct (bluesky_indices entries); reflexivity.
Qed.

Section WithSetOrder.
Variable set_list : list string -> list string.

Lemma apply_contents_length entries idxs cs :
  List.length (apply_contents set_list entries idxs cs) = List.length entries.
Proof.
  revert entries cs. induction idxs as [|i idxs IH]; intros entries [|c cs]; simpl; try reflexivity.
  rewrite IH. destruct c as [s|], (entries !! i); try reflexivity.
  destruct (truthy (Some s)); [apply length_insert|reflexivity].
Qed.

Lemma apply_contents_untouched entries idxs cs j :
  ~ In j idxs -> apply_contents set_list entries idxs cs !! j = entries !! j.
Proof.
  revert entries cs. induction idxs as [|i idxs IH]; intros entries [|c cs] Hj; simpl; try reflexivity.
  simpl in Hj. rewrite IH by tauto.
  destruct c as [s|], (entries !! i); try reflexivity.
  destruct (truthy (Some s)); [|reflexivity].
  apply list_lookup_insert_ne. intros ->. tauto.
Qed.

(** The entry at the position of the [k]-th Bluesky entry after the
    loop, given the [k]-th gathered content. *)
Lemma apply_contents_at entries idxs cs k i c :
  List.NoDup idxs -> idxs !! k = Some i -> cs !! k = Some c ->
  apply_contents set_list entries idxs cs !! i =
  match c, entries !! i with
  | Some s, Some e => if truthy c then Some (enrich_entry set_list e s) else Some e
  | _, r => r
  end.
Proof.
  revert entries cs k. induction idxs as [|i0 idxs IH]; intros entries cs k Hnd Hk Hc;
    [discriminate|].
  destruct cs as [|c0 cs]; [destruct k; discriminate|].
  inversion Hnd as [|? ? Hi0 Hnd']; subst. simpl.
  destruct k as [|k].
  - simpl in Hk, Hc. injection Hk as ->. injection Hc as ->.
    rewrite apply_contents_untouched by exact Hi0.
    destruct c as [s|]; destruct (entries !! i) as [e|] eqn:He; try reflexivity; try exact He.
    destruct (truthy (Some s)); [|exact He].
    apply list_lookup_insert_eq. apply lookup_lt_Some in He. exact He.
  - simpl in Hk, Hc.
    assert (Hne : i0 <> i).
    { intros ->. apply Hi0. apply (list_elem_of_In idxs i). apply list_elem_of_lookup. eauto. }
    rewrite (IH _ cs k Hnd' Hk Hc).
    assert (Hl : (match c0, entries !! i0 with
                  | Some s, Some e => if truthy c0 then <[i0 := enrich_entry set_list e s]> entries
                                      else entries
                  | _, _ => entries end) !! i = entries !! i).
    { destruct c0 as [s|], (entries !! i0); try reflexivity.
      destruct (truthy (Some s)); [apply list_lookup_insert_ne; exact Hne|reflexivity]. }
    rewrite Hl. reflexivity.
Qed.

Lemma count_insert (P : NewsEntry -> bool) (l : list NewsEntry) i x y :
  l !! i = Some y ->
  List.length (List.filter P (<[i := x]> l)) + (if P y then 1 else 0)
  = List.length (List.filter P l) + (if P x then 1 else 0).
Proof.
  revert i. induction l as [|a l IH]; intros [|i] H; try discriminate.
  - simpl in H. injection H as <-. simpl.
    destruct (P x), (P a); simpl; lia.
  - simpl in H. simpl. specialize (IH i H).
    destruct (P a); simpl; lia.
Qed.

Lemma enrich_entry_snippet e s : content_snippet (enrich_entry set_list e s) = Some s.
Proof. reflexivity. Qed.

Lemma apply_contents_count entries idxs cs :
  List.NoDup idxs -> List.length cs = List.length idxs ->
  (forall i, In i idxs -> exists e, entries !! i = Some e /\ content_snippet e = None) ->
  List.length (List.filter has_snippet (apply_contents set_list entries idxs cs))
  = List.length (List.filter has_snippet entries) + List.length (List.filter truthy cs).
Proof.
  revert entries cs. induction idxs as [|i idxs IH]; intros entries [|c cs] Hnd Hlen Hfresh;
    try discriminate; simpl; [lia|].
  inversion Hnd as [|? ? Hi Hnd']; subst. injection Hlen as Hlen.
  destruct (Hfresh i (or_introl eq_refl)) as (e & He & Hs).
  rewrite He.
  destruct c as [s|] eqn:Hc; [destruct (truthy (Some s)) eqn:Ht|].
  - rewrite IH; [|exact Hnd'|exact Hlen|].
    + pose proof (count_insert has_snippet entries i (enrich_entry set_list e s) e He) as Hci.
      assert (H1 : has_snippet e = false) by (unfold has_snippet; rewrite Hs; reflexivity).
      assert (H2 : has_snippet (enrich_entry set_list e s) = true) by reflexivity.
      rewrite H1, H2 in Hci. simpl. lia.
    + intros j Hj. assert (Hne : i <> j) by (intros ->; contradiction).
      rewrite list_lookup_insert_ne by exact Hne. apply Hfresh. right. exact Hj.
  - rewrite IH; [reflexivity|exact Hnd'|exact Hlen|].
    intros j Hj. apply Hfresh. right. exact Hj.
  - rewrite IH; [reflexivity|exact Hnd'|exact Hlen|].
    intros j Hj. apply Hfresh. right. exact Hj.
Qed.
End WithSetOrder.

Lemma filter_split {A} (f : A -> bool) (l : list A) :
  List.length (List.filter f l) + List.length (List.filter (fun x => negb (f x)) l)
  = List.length l.
Proof. induction l as [|x l IH]; simpl; [reflexivity|]. destruct (f x); simpl; lia. Qed.
End EnricherFacts.

Module EnrichmentClaims.
Import Enricher EnricherFacts.
Local Open Scope nat_scope.
Local Open Scope list_scope.

Lemma no_snippets_count (entries : list NewsEntry) :
  List.Forall (fun e => content_snippet e = None) entries ->
  List.length (List.filter has_snippet entries) = 0.
Proof.
  induction 1 as [|e l He _ IH]; simpl; [reflexivity|].
  unfold has_snippet at 1. rewrite He. exact IH.
Qed.

Lemma forall_lookup (entries : list NewsEntry) i e :
  List.Forall (fun e => content_snippet e = None) entries ->
  entries !! i = Some e -> content_snippet e = None.
Proof.
  intros Hall Hi. apply (proj1 (List.Forall_forall _ _) Hall).
  apply list_elem_of_In. apply list_elem_of_lookup. eauto.
Qed.

(** C6. With [N] Bluesky entries of which [M] get no content from the
    gathered fetches ([None], or an empty text, which [if content:]
    treats alike), exactly [N - M] entries end with a content snippet,
    each re-tagged from its content; a failing entry, like every entry
    outside the batch, is left exactly as it was. *)
Theorem enrichment_partial_success (set_list : list string -> list string)
    (st0 : State) (net : nat -> HttpOutcome) (entries : list NewsEntry)
    (Hfresh : List.Forall (fun e => content_snippet e = None) entries) :
  let idxs := bluesky_indices entries in
  let contents := gather_contents st0 entries net 0 idxs in
  let res := process_bluesky_entries set_list st0 net entries in
  List.length res = List.length entries /\
  List.length (List.filter has_snippet res)
    = List.length idxs - List.length (List.filter (fun c => negb (truthy c)) contents) /\
  (forall k i c, idxs !! k = Some i -> contents !! k = Some c -> truthy c = false ->
     res !! i = entries !! i) /\
  (forall k i s e, idxs !! k = Some i -> contents !! k = Some (Some s) ->
     truthy (Some s) = true -> entries !! i = Some e ->
     res !! i = Some (enrich_entry set_list e s)) /\
  (forall i, ~ In i idxs -> res !! i = entries !! i).
Proof.
  intros idxs contents res. subst res. rewrite process_as_apply. fold idxs. fold contents.
  pose proof (bluesky_indices_nodup entries) as Hnd. fold idxs in Hnd.
  assert (Hlen : List.length contents = List.length idxs) by apply gather_length.
  split; [apply apply_contents_length|].
  split.
  - rewrite apply_contents_count; [|exact Hnd|exact Hlen|].
    + rewrite no_snippets_count by exact Hfresh.
      pose proof (filter_split truthy contents) as Hs. lia.
    + intros i Hi. apply bluesky_indices_spec in Hi. destruct Hi as (e & He & _).
      exists e. split; [exact He|]. exact (forall_lookup entries i e Hfresh He).
  - split; [|split].
    + intros k i c Hk Hc Ht. rewrite (apply_contents_at set_list entries idxs contents k i c Hnd Hk Hc).
      destruct c as [s|]; [|reflexivity].
      destruct (entries !! i); [|reflexivity]. rewrite Ht. reflexivity.
    + intros k i s e Hk Hc Ht He.
      rewrite (apply_contents_at set_list entries idxs contents k i (Some s) Hnd Hk Hc).
      rewrite He, Ht. reflexivity.
    + intros i Hi. apply apply_contents_untouched. exact Hi.
Qed.

(** C5. A successfully enriched entry ends with exactly the tags of the
    enriched re-scoring of its URL, title and content: the themes and
    keywords it had before take no part. *)
Theorem enrichment_replaces_tags (set_list : list string -> list string)
    (st0 : State) (net : nat -> HttpOutcome) (entries : list NewsEntry)
    (k i : nat) (s : string) (e : NewsEntry)
    (Hk : bluesky_indices entries !! k = Some i)
    (Hc : gather_contents st0 entries net 0 (bluesky_indices entries) !! k = Some (Some s))
    (Hs : s <> EmptyString)
    (He : entries !! i = Some e) :
  let combined := lower (url e ++ " " ++ title e ++ " " ++ s) in
  exists e', process_bluesky_entries set_list st0 net entries !! i = Some e' /\
    themes e' = Classifier.themes_enriched combined (lower s) /\
    keywords e' = firstn 3 (set_list (Classifier.keyword_matches combined)) /\
    content_snippet e' = Some s.
Proof.
  intros combined. rewrite process_as_apply.
  rewrite (apply_contents_at set_list entries _ _ k i (Some s) (bluesky_indices_nodup entries) Hk Hc).
  rewrite He.
  assert (Ht : truthy (Some s) = true).
  { unfold truthy. destruct (String.eqb s EmptyString) eqn:E; [|reflexivity].
    apply String.eqb_eq in E. contradiction. }
  rewrite Ht. eexists. split; [reflexivity|]. split; [reflexivity|]. split; reflexivity.
Qed.
End EnrichmentClaims.

(* ------------------------------------------------------------------ *)
(** ** Substring tests and the Bluesky eligibility test *)

Module ContainsFacts.
Local Open Scope nat_scope.

Lemma starts_with_spec p s : starts_with p s = true <-> exists post, s = p ++ post.
Proof.
  revert s. induction p as [|a p IH]; intros s; simpl.
  - split; [intros _; exists s; reflexivity|reflexivity].
  - destruct s as [|b s].
    + split; [discriminate|]. intros [post H]. discriminate.
    + rewrite Bool.andb_true_iff, IH. split.
      * intros [Hab [post ->]]. apply Ascii.eqb_eq in Hab. subst. exists post. reflexivity.
      * intros [post H]. injection H as -> ->. split; [apply Ascii.eqb_refl|]. eexists; reflexivity.
Qed.

(** Python's [p in s]: [p] occurs somewhere in [s]. *)
Lemma contains_spec p s : contains p s = true <-> exists pre post, s = pre ++ p ++ post.
Proof.
  induction s as [|c s IH].
  - simpl. rewrite Bool.orb_false_r, starts_with_spec. split.
    + intros [post H]. exists EmptyString, post. exact H.
    + intros [pre [post H]]. destruct pre; [|discriminate]. exists post. exact H.
  - change (contains p (String c s)) with (starts_with p (String c s) || contains p s).
    rewrite Bool.orb_true_iff, starts_with_spec, IH. split.
    + intros [[post H]|[pre [post H]]].
      * exists EmptyString, post. exact H.
      * exists (String c pre), post. rewrite H. reflexivity.
    + intros [[|c' pre] [post H]].
      * left. exists post. exact H.
      * right. injection H as -> H. exists pre, post. exact H.
Qed.
End ContainsFacts.

Module EligibilityClaims.
Import Enricher EnricherFacts ContainsFacts.
Local Open Scope nat_scope.
Local Open Scope list_scope.

Lemma filter_seq_shift (f : nat -> bool) a n :
  List.length (List.filter f (seq (S a) n)) = List.length (List.filter (fun i => f (S i)) (seq a n)).
Proof.
  revert a. induction n as [|n IH]; intros a; simpl; [reflexivity|].
  destruct (f (S a)); simpl; rewrite IH; reflexivity.
Qed.

Lemma filter_lookup_count (g : option NewsEntry -> bool) (l : list NewsEntry) :
  List.length (List.filter (fun i => g (l !! i)) (seq 0 (List.length l)))
  = List.length (List.filter (fun x => g (Some x)) l).
Proof.
  induction l as [|x l IH]; [reflexivity|].
  assert (E1 : List.filter (fun i => g ((x :: l) !! i)) (seq 0 (List.length (x :: l)))
               = (if g (Some x) then [0] else [])
                 ++ List.filter (fun i => g ((x :: l) !! i)) (seq 1 (List.length l)))
    by (simpl; destruct (g (Some x)); reflexivity).
  assert (E2 : List.filter (fun y => g (Some y)) (x :: l)
               = (if g (Some x) then [x] else []) ++ List.filter (fun y => g (Some y)) l)
    by (simpl; destruct (g (Some x)); reflexivity).
  rewrite E1, E2, !length_app, filter_seq_shift.
  change (fun i => g ((x :: l) !! S i)) with (fun i => g (l !! i)).
  rewrite IH. destruct (g (Some x)); reflexivity.
Qed.

Lemma indices_count (entries : list NewsEntry) :
  List.length (bluesky_indices entries) = bluesky_count entries.
Proof.
  unfold bluesky_indices, bluesky_count.
  exact (filter_lookup_count (fun o => match o with Some e => is_bluesky e | None => false end)
           entries).
Qed.

(** C9. An entry is enrichment-eligible, and counted among the Bluesky
    entries of the statistics, exactly when the literal ["bsky.app"]
    occurs anywhere in its full URL, whatever the host: a URL whose host
    is [example.com] and whose query holds ["bsky.app"] is eligible. *)
Theorem bluesky_eligibility_substring (entries : list NewsEntry) :
  (forall i e, entries !! i = Some e ->
     (In i (bluesky_indices entries) <->
      exists pre post, url e = (pre ++ "bsky.app" ++ post)%string)) /\
  List.length (bluesky_indices entries) = bluesky_count entries /\
  (Url.netloc "https://example.com/share?u=bsky.app" = Some "example.com" /\
   is_bluesky (mkEntry 1 "https://example.com/share?u=bsky.app" "t" None [] [] None) = true).
Proof.
  split; [|split; [apply indices_count|split; reflexivity]].
  intros i e He. rewrite bluesky_indices_spec. unfold is_bluesky.
  rewrite <- contains_spec. split.
  - intros (e' & He' & Hb). rewrite He in He'. injection He' as <-. exact Hb.
  - intros Hb. exists e. split; assumption.
Qed.
End EligibilityClaims.

(* ------------------------------------------------------------------ *)
(** ** The per-URL content cache *)

Module CacheClaims.
Import Enricher.
Local Open Scope list_scope.

Lemma fetch_cache_cases st u net :
  (fst (fetch_bluesky_content st u net) = None /\
   snd (fetch_bluesky_content st u net) = mkState (cache st) (requests st ++ [u]) /\
   cache st !! u = None) \/
  (exists c, fst (fetch_bluesky_content st u net) = Some c /\
     ((cache st !! u = Some c /\ snd (fetch_bluesky_content st u net) = st) \/
      (cache st !! u = None /\
       snd (fetch_bluesky_content st u net)
       = mkState (<[u := c]> (cache st)) (requests st ++ [u])))).
Proof.
  unfold fetch_bluesky_content.
  destruct (cache st !! u) as [v|] eqn:Hc.
  - right. exists v. simpl. split; [reflexivity|]. left. split; reflexivity.
  - destruct net as [|status body]; [left; simpl; auto|].
    destruct (status =? 200)%Z; [|left; simpl; auto].
    destruct body as [soup|]; [|left; simpl; auto].
    destruct (select_content soup content_selectors) as [[c|]|]; [|left; simpl; auto..].
    right. exists c. simpl. split; [reflexivity|]. right. split; reflexivity.
Qed.

(** C10. A fetch that fails (an exception, a status other than 200, or
    no selector matching) leaves the cache as it was, only a successful
    extraction being written to it; so the next request for the same URL
    issues a new GET. *)
Theorem fetch_failure_not_cached (st : State) (u : string) (net : HttpOutcome)
    (Hfail : fst (fetch_bluesky_content st u net) = None) :
  let st' := snd (fetch_bluesky_content st u net) in
  cache st' = cache st /\
  cache st' !! u = None /\
  requests st' = requests st ++ [u] /\
  (forall net', requests (snd (fetch_bluesky_content st' u net')) = requests st' ++ [u]) /\
  (forall st0 net0 c, fst (fetch_bluesky_content st0 u net0) = Some c ->
     cache (snd (fetch_bluesky_content st0 u net0)) = <[u := c]> (cache st0)).
Proof.
  intros st'.
  destruct (fetch_cache_cases st u net) as [(_ & Hs & Hc)|(c & Hr & _)];
    [|rewrite Hr in Hfail; discriminate].
  subst st'. rewrite Hs. simpl.
  split; [reflexivity|]. split; [exact Hc|]. split; [reflexivity|]. split.
  - intros net'.
    destruct (fetch_cache_cases (mkState (cache st) (requests st ++ [u])) u net')
      as [(_ & Hs' & _)|(c & _ & [(Hc' & _)|(_ & Hs')])].
    + rewrite Hs'. reflexivity.
    + simpl in Hc'. rewrite Hc in Hc'. discriminate.
    + rewrite Hs'. reflexivity.
  - intros st0 net0 c Hr.
    destruct (fetch_cache_cases st0 u net0) as [(Hn & _)|(c' & Hr' & [(Hc0 & Hs0)|(_ & Hs0)])].
    + rewrite Hn in Hr. discriminate.
    + rewrite Hr' in Hr. injection Hr as <-. rewrite Hs0.
      rewrite insert_id by exact Hc0. reflexivity.
    + rewrite Hr' in Hr. injection Hr as <-. rewrite Hs0. reflexivity.
Qed.
End CacheClaims.

(* ------------------------------------------------------------------ *)
(** ** The theme fallback *)

Module FallbackClaims.
Import Classifier Enricher.
Local Open Scope nat_scope.

Lemma no_pattern_no_scores text :
  no_theme_pattern text = true ->
  theme_scores_of (score_with (fun p => contains p text) (fun _ => 1)) THEMES = [].
Proof.
  unfold no_theme_pattern. rewrite ClassifierFacts.theme_scores_text.
  induction THEMES as [|[t ps] ths IH]; simpl; [reflexivity|].
  rewrite Bool.andb_true_iff. intros [Hps Hths].
  assert (H0 : List.filter (fun p => contains p text) ps = []).
  { clear -Hps. induction ps as [|p ps IH]; simpl in *; [reflexivity|].
    rewrite Bool.andb_true_iff in Hps. destruct Hps as [Hp Hps].
    destruct (contains p text); [discriminate|]. exact (IH Hps). }
  rewrite H0. simpl. exact (IH Hths).
Qed.

(** The initial tagging keeps the fallback: with no theme pattern in the
    text, the entry gets the single domain theme ([justice] for a
    [supreme]/[scotus] host, [government] otherwise). *)
Lemma tag_entry_fallback (set_list : list string -> list string) e e' :
  no_theme_pattern (lower (url e ++ " " ++ title e)) = true ->
  tag_entry set_list e = Some e' ->
  exists domain, Url.netloc (url e) = Some domain /\
    themes e' = [fallback_theme domain] /\
    (fallback_theme domain = "justice" \/ fallback_theme domain = "government").
Proof.
  intros Hno Ht. unfold tag_entry, themes_text in Ht.
  rewrite (no_pattern_no_scores _ Hno) in Ht. simpl in Ht.
  destruct (Url.netloc (url e)) as [domain|]; [|discriminate].
  injection Ht as <-. exists domain. split; [reflexivity|]. split; [reflexivity|].
  unfold fallback_theme.
  destruct (contains "supreme" domain || contains "scotus" domain); [left|right]; [reflexivity|].
  destruct (existsb _ _); reflexivity.
Qed.

(** C2 (the enriched re-tagging). The input line
    [1. <a href="https://bsky.app/profile/x/post/1">hello</a>] is parsed
    and tagged [government] by the fallback; its post text
    ["hello world"] is fetched, and the re-tagging, which has no
    fallback, leaves the entry with no theme at all, although no theme
    pattern occurs in its enriched text. *)
Theorem enriched_retag_leaves_no_theme (set_list : list string -> list string) :
  let u := "https://bsky.app/profile/x/post/1" in
  let line := "1. <a href=" ++ String EntryParser.dq (u ++ String EntryParser.dq ">hello</a>") in
  let soup : Soup := fun sel => match sel with
                                | PostText => Some (mkElement "div" None "hello world")
                                | _ => None
                                end in
  let e0 := mkEntry 1 u "hello" None [] [] None in
  let e1 := mkEntry 1 u "hello" None ["government"] (firstn 3 (set_list [])) None in
  let e2 := mkEntry 1 u "hello" None [] (firstn 3 (set_list [])) (Some "hello world") in
  EntryParser.parse_input_file line = [e0] /\
  tag_entry set_list e0 = Some e1 /\
  process_bluesky_entries set_list (mkState ∅ []) (fun _ => Response 200 (Some soup)) [e1] = [e2] /\
  no_theme_pattern (lower (u ++ " " ++ "hello" ++ " " ++ "hello world")) = true /\
  themes e2 = [].
Proof. vm_compute. repeat split. Qed.
End FallbackClaims.

(* ------------------------------------------------------------------ *)
(** ** The EntryParser *)

Module ParserClaims.
Import EntryParser.
Local Open Scope nat_scope.
Local Open Scope list_scope.

Lemma parse_lines_bounds i ls e :
  In e (parse_lines i ls) ->
  i <= id e < i + List.length ls /\
  exists line, ls !! (id e - i) = Some line /\ m_line (strip line) = Some (url e, title e).
Proof.
  revert i. induction ls as [|l ls IH]; intros i He; simpl in He; [contradiction|].
  destruct (m_line (strip l)) as [[u t]|] eqn:Hm.
  - destruct He as [<-|He].
    + simpl. split; [lia|]. exists l. rewrite Nat.sub_diag. split; [reflexivity|exact Hm].
    + destruct (IH (S i) He) as [Hb (line & Hl & Hml)]. simpl. split; [lia|].
      exists line. replace (id e - i) with (S (id e - S i)) by lia. split; assumption.
  - destruct (IH (S i) He) as [Hb (line & Hl & Hml)]. simpl. split; [lia|].
    exists line. replace (id e - i) with (S (id e - S i)) by lia. split; assumption.
Qed.

Lemma parse_lines_sorted i ls : StronglySorted lt (map id (parse_lines i ls)).
Proof.
  revert i. induction ls as [|l ls IH]; intros i; simpl; [constructor|].
  destruct (m_line (strip l)) as [[u t]|]; [|apply IH].
  simpl. constructor; [apply IH|].
  apply List.Forall_forall. intros n Hn. apply in_map_iff in Hn. destruct Hn as (e & <- & He).
  destruct (parse_lines_bounds (S i) ls e He) as [Hb _]. simpl. lia.
Qed.

Lemma parse_lines_length i ls :
  List.length (parse_lines i ls) = List.length (List.filter parses ls).
Proof.
  revert i. induction ls as [|l ls IH]; intros i; simpl; [reflexivity|].
  unfold parses at 1. destruct (m_line (strip l)) as [[u t]|]; simpl; rewrite IH; reflexivity.
Qed.

Lemma parse_lines_all i ls :
  List.Forall (fun l => parses l = true) ls -> map id (parse_lines i ls) = seq i (List.length ls).
Proof.
  intros H. revert i. induction H as [|l ls Hl _ IH]; intros i; simpl; [reflexivity|].
  unfold parses in Hl. destruct (m_line (strip l)) as [[u t]|]; [|discriminate].
  simpl. rewrite IH. reflexivity.
Qed.

(** C1 (corrected). An entry's id is the 1-based position of its line in
    the input, skipped lines included: the ids increase strictly, each
    names the line the entry was parsed from, there is one entry per
    parseable line, and the ids are exactly [1..k] when all [k] lines
    parse. *)
Theorem parse_ids_are_line_positions (text : string) :
  let lines := readlines text in
  let es := parse_input_file text in
  StronglySorted lt (map id es) /\
  (forall e, In e es ->
     1 <= id e /\
     exists line, lines !! (id e - 1) = Some line /\ m_line (strip line) = Some (url e, title e)) /\
  List.length es = List.length (List.filter parses lines) /\
  (List.Forall (fun l => parses l = true) lines -> map id es = seq 1 (List.length lines)).
Proof.
  intros lines es. unfold es, parse_input_file. fold lines.
  split; [apply parse_lines_sorted|].
  split; [|split; [apply parse_lines_length|apply parse_lines_all]].
  intros e He. destruct (parse_lines_bounds 1 lines e He) as [Hb Hl]. split; [lia|exact Hl].
Qed.

(** C1, as stated, fails: after one malformed line, the only parseable
    line gets id 2, not 1. *)
Lemma parse_ids_gap_counterexample :
  ~ (forall text, map id (parse_input_file text) = seq 1 (List.length (parse_input_file text))).
Proof.
  intros H.
  specialize (H ("junk" ++ String "010"%char
                ("1. <a href=" ++ String dq ("https://a.example/x" ++ String dq ">T</a>")))%string).
  vm_compute in H. discriminate H.
Qed.
End ParserClaims.

(* ------------------------------------------------------------------ *)
(** ** The DateExtractor *)

Module DateClaims.
Import DateExtractor.
Local Open Scope Z_scope.

Lemma try_patterns_spec (ps : list (string -> option (Z * Z * Z))) u s :
  try_patterns ps u = Some s <->
  exists k c, map (fun p => search p u) ps !! k = Some (Some c) /\
    plausible c = true /\ s = format_date c /\
    (forall j c', (j < k)%nat -> map (fun p => search p u) ps !! j = Some (Some c') ->
                  plausible c' = false).
Proof.
  induction ps as [|p ps IH]; simpl.
  - split; [discriminate|]. intros (k & c & Hk & _). destruct k; discriminate.
  - destruct (search p u) as [c0|] eqn:Hp; [destruct (plausible c0) eqn:Hpl|].
    + split.
      * intros Hs. injection Hs as <-. exists O, c0. repeat split; try assumption.
        intros j c' Hj. lia.
      * intros (k & c & Hk & Hc & -> & Hbefore). destruct k as [|k].
        -- simpl in Hk. injection Hk as ->. reflexivity.
        -- specialize (Hbefore O c0 ltac:(lia) eq_refl). congruence.
    + rewrite IH. split.
      * intros (k & c & Hk & Hc & Hs & Hbefore). exists (S k), c.
        repeat split; try assumption.
        intros [|j] c' Hj Hj'; [simpl in Hj'; injection Hj' as <-; exact Hpl|].
        apply (Hbefore j c'); [lia|exact Hj'].
      * intros (k & c & Hk & Hc & Hs & Hbefore). destruct k as [|k].
        -- simpl in Hk. injection Hk as ->. congruence.
        -- exists k, c. repeat split; try assumption.
           intros j c' Hj Hj'. apply (Hbefore (S j) c'); [lia|exact Hj'].
    + rewrite IH. split.
      * intros (k & c & Hk & Hc & Hs & Hbefore). exists (S k), c.
        repeat split; try assumption.
        intros [|j] c' Hj Hj'; [simpl in Hj'; discriminate|].
        apply (Hbefore j c'); [lia|exact Hj'].
      * intros (k & c & Hk & Hc & Hs & Hbefore). destruct k as [|k]; [discriminate|].
        exists k, c. repeat split; try assumption.
        intros j c' Hj Hj'. apply (Hbefore (S j) c'); [lia|exact Hj'].
Qed.

Lemma try_patterns_none (ps : list (string -> option (Z * Z * Z))) u :
  try_patterns ps u = None <->
  forall j c', map (fun p => search p u) ps !! j = Some (Some c') -> plausible c' = false.
Proof.
  induction ps as [|p ps IH]; simpl.
  - split; [intros _ j c' H; destruct j; discriminate|reflexivity].
  - destruct (search p u) as [c0|] eqn:Hp; [destruct (plausible c0) eqn:Hpl|].
    + split; [discriminate|]. intros H. specialize (H O c0 eq_refl). congruence.
    + rewrite IH. split.
      * intros H [|j] c' Hj; [simpl in Hj; injection Hj as <-; exact Hpl|exact (H j c' Hj)].
      * intros H j c' Hj. exact (H (S j) c' Hj).
    + rewrite IH. split.
      * intros H [|j] c' Hj; [discriminate|exact (H j c' Hj)].
      * intros H j c' Hj. exact (H (S j) c' Hj).
Qed.

(** [re.search] returns the match at the leftmost position. *)
Lemma search_leftmost {A} (m : string -> option A) u r :
  search m u = Some r ->
  exists pre rest, u = (pre ++ rest)%string /\ m rest = Some r /\
    (forall pre' rest', u = (pre' ++ rest')%string ->
       (String.length pre' < String.length pre)%nat -> m rest' = None).
Proof.
  revert r. induction u as [|c u IH]; intros r Hs; simpl in Hs.
  - destruct (m EmptyString) eqn:Hm; [|discriminate]. injection Hs as <-.
    exists EmptyString, EmptyString. split; [reflexivity|]. split; [exact Hm|].
    intros pre' rest' _ Hl. simpl in Hl. lia.
  - destruct (m (String c u)) eqn:Hm.
    + injection Hs as <-. exists EmptyString, (String c u).
      split; [reflexivity|]. split; [exact Hm|]. intros pre' rest' _ Hl. simpl in Hl. lia.
    + destruct (IH r Hs) as (pre & rest & Hu & Hr & Hmin).
      exists (String c pre), rest. split; [rewrite Hu; reflexivity|]. split; [exact Hr|].
      intros [|c' pre'] rest' Hu' Hl.
      * change ((EmptyString ++ rest')%string) with rest' in Hu'. rewrite <- Hu'. exact Hm.
      * simpl in Hu', Hl. injection Hu' as _ Hu'. apply (Hmin pre' rest' Hu'). lia.
Qed.

Lemma plausible_bounds y mo d :
  plausible (y, mo, d) = true ->
  2024 <= y <= 2026 /\ 1 <= mo <= 12 /\ 1 <= d <= 31.
Proof. unfold plausible. rewrite !Bool.andb_true_iff, !Z.leb_le. lia. Qed.

(** C3 (corrected). The three patterns are tried in order, each at its
    leftmost match; the first pattern whose candidate passes the
    plausibility filter (year 2024-2026, month 1-12, day 1-31, which
    accepts February 31) gives the date, and a candidate failing the
    filter passes on to the next pattern; none when no pattern yields a
    plausible candidate. *)
Theorem extract_date_first_plausible (u s : string) :
  let cands := map (fun p => search p u) patterns in
  (extract_date u = Some s <->
   exists k c, cands !! k = Some (Some c) /\ plausible c = true /\ s = format_date c /\
     (forall j c', (j < k)%nat -> cands !! j = Some (Some c') -> plausible c' = false)) /\
  (extract_date u = None <->
   forall j c', cands !! j = Some (Some c') -> plausible c' = false) /\
  (extract_date u = Some s ->
   exists y mo d, s = format_date (y, mo, d) /\
     2024 <= y <= 2026 /\ 1 <= mo <= 12 /\ 1 <= d <= 31) /\
  (forall p c, In p patterns -> search p u = Some c ->
   exists pre rest, u = (pre ++ rest)%string /\ p rest = Some c /\
     (forall pre' rest', u = (pre' ++ rest')%string ->
        (String.length pre' < String.length pre)%nat -> p rest' = None)) /\
  extract_date "https://site.example/2025/02/31/x" = Some "2025-02-31".
Proof.
  intros cands. split; [apply try_patterns_spec|]. split; [|split; [|split]].
  - apply try_patterns_none.
  - intros Hs. apply try_patterns_spec in Hs. destruct Hs as (k & [[y mo] d] & _ & Hc & -> & _).
    exists y, mo, d. split; [reflexivity|]. apply plausible_bounds. exact Hc.
  - intros p c _ Hp. apply search_leftmost. exact Hp.
  - reflexivity.
Qed.
(** C3, as stated, fails: in [https://x.example/2023/01/01/a/20250115]
    the first pattern matches [/2023/01/01/], whose year is out of range,
    and the code goes on to the third pattern and returns [2025-01-15],
    where "the first structurally matching pattern wins" gives none. *)
Lemma extract_date_fallthrough_counterexample :
  extract_date "https://x.example/2023/01/01/a/20250115" = Some "2025-01-15" /\
  extract_date_first_wins "https://x.example/2023/01/01/a/20250115" = None /\
  ~ (forall u, extract_date u = extract_date_first_wins u).
Proof.
  split; [reflexivity|]. split; [reflexivity|].
  intros H. specialize (H "https://x.example/2023/01/01/a/20250115").
  vm_compute in H. discriminate H.
Qed.
End DateClaims.

(* ------------------------------------------------------------------ *)
(** ** The summary fallback *)

Module SummaryClaims.
Import Summary.
Local Open Scope nat_scope.

Lemma sample_links_ok es : List.Forall well_formed es -> exists s, sample_links es = Ok s.
Proof.
  induction 1 as [|e es [Ht Hu] _ [rest IH]]; simpl; [eexists; reflexivity|].
  destruct (s_url e) as [u|]; [|contradiction]. destruct (s_title e) as [t|]; [|contradiction].
  simpl. rewrite IH. simpl. eexists; reflexivity.
Qed.

Lemma entry_texts_ok es : List.Forall well_formed es -> exists ts, entry_texts es = Ok ts.
Proof.
  induction 1 as [|e es [Ht Hu] _ [rest IH]]; simpl; [eexists; reflexivity|].
  destruct (s_title e) as [t|]; [|contradiction]. destruct (s_url e) as [u|]; [|contradiction].
  simpl. rewrite IH. simpl. eexists; reflexivity.
Qed.

Lemma forall_firstn {A} (P : A -> Prop) n (l : list A) :
  List.Forall P l -> List.Forall P (firstn n l).
Proof.
  intros H. revert n. induction H as [|x l Hx H IH]; intros [|n]; simpl; constructor; auto.
Qed.

Lemma fallback_ok theme info entries :
  assoc theme THEME_INFO = Some info -> List.Forall well_formed entries ->
  exists fb, generate_fallback_summary theme entries = Ok fb.
Proof.
  intros Hi Hw. unfold generate_fallback_summary. rewrite Hi. simpl.
  destruct (sample_links_ok (firstn 5 entries) (forall_firstn _ 5 _ Hw)) as [links Hl].
  rewrite Hl. simpl. eexists; reflexivity.
Qed.

(** C8 (corrected). For a theme of [THEME_INFO] and entries that carry a
    ['title'] and a ['url'], the summary operation returns a text and
    never raises: the service's text on a 200 answer whose payload holds
    one, and otherwise (no credential, an empty one, another status, a
    transport exception or an unreadable payload) the locally generated
    fallback, a function of the theme and the entries alone. *)
Theorem theme_summary_falls_back (theme : string) (info : ThemeInfo) (entries : list SEntry)
    (Hinfo : assoc theme THEME_INFO = Some info)
    (Hwf : List.Forall well_formed entries) :
  exists fb, generate_fallback_summary theme entries = Ok fb /\
    forall api_key api, exists prompt,
      generate_theme_summary_with_claude api_key api theme entries =
      match api_key with
      | None => Ok fb
      | Some k =>
          if String.eqb k EmptyString then Ok fb
          else match api prompt with
               | ApiResponse status (Some t) => if (status =? 200)%Z then Ok t else Ok fb
               | _ => Ok fb
               end
      end.
Proof.
  destruct (fallback_ok theme info entries Hinfo Hwf) as [fb Hfb].
  exists fb. split; [exact Hfb|]. intros api_key api.
  destruct (entry_texts_ok (firstn 20 entries) (forall_firstn _ 20 _ Hwf)) as [texts Ht].
  exists (build_prompt info texts).
  unfold generate_theme_summary_with_claude.
  destruct api_key as [k|]; [|exact Hfb].
  destruct (String.eqb k EmptyString); [exact Hfb|].
  rewrite Ht. cbn [bind]. rewrite Hinfo. cbn [bind subscript].
  destruct (api (build_prompt info texts)) as [|status [t|]]; [exact Hfb| |];
    destruct (status =? 200)%Z; rewrite ?Hfb; reflexivity.
Qed.

(** C8, as stated, fails: for a theme outside [THEME_INFO] the lookup
    [THEME_INFO[theme]] raises [KeyError], with or without a credential. *)
Lemma theme_summary_unknown_theme_counterexample :
  generate_theme_summary_with_claude None (fun _ => TransportError) "weather" []
    = Raise (KeyError "weather") /\
  generate_theme_summary_with_claude (Some "k") (fun _ => TransportError) "weather" []
    = Raise (KeyError "weather") /\
  ~ (forall api_key api theme entries,
       exists t, generate_theme_summary_with_claude api_key api theme entries = Ok t).
Proof.
  split; [reflexivity|]. split; [reflexivity|].
  intros H. destruct (H None (fun _ => TransportError) "weather" []) as [t Ht].
  vm_compute in Ht. discriminate Ht.
Qed.
End SummaryClaims.

(* ------------------------------------------------------------------ *)
(** ** Witnesses: the theorems at the concrete runs *)

Module Witnesses.
Import Enricher Scenarios.
Local Open Scope nat_scope.
Local Open Scope list_scope.

Lemma sc_set_list_nodup : forall l, NoDup (sc_set_list l).
Proof. intros l. apply NoDup_ListNoDup, List.NoDup_nodup. Qed.

Lemma tagging_cardinality_witness :
  (forall l, NoDup (sc_set_list l)) /\
  ((forall e', Classifier.tag_entry sc_set_list sc_e3 = Some e' ->
      List.length (themes e') <= 2 /\ List.length (keywords e') <= 3 /\ NoDup (keywords e')) /\
   (forall content, let e' := Classifier.tag_entry_with_content sc_set_list sc_e3 content in
      List.length (themes e') <= 2 /\ List.length (keywords e') <= 3 /\ NoDup (keywords e'))).
Proof.
  split; [exact sc_set_list_nodup|].
  exact (ClassifierFacts.tagging_cardinality sc_set_list sc_set_list_nodup sc_e3).
Defined.

Lemma enrichment_partial_success_witness :
  List.Forall (fun e => content_snippet e = None) sc_entries /\
  (let idxs := bluesky_indices sc_entries in
   let contents := gather_contents sc_st sc_entries sc_net 0 idxs in
   let res := process_bluesky_entries sc_set_list sc_st sc_net sc_entries in
   List.length res = List.length sc_entries /\
   List.length (List.filter has_snippet res)
     = List.length idxs - List.length (List.filter (fun c => negb (truthy c)) contents) /\
   (forall k i c, idxs !! k = Some i -> contents !! k = Some c -> truthy c = false ->
      res !! i = sc_entries !! i) /\
   (forall k i s e, idxs !! k = Some i -> contents !! k = Some (Some s) ->
      truthy (Some s) = true -> sc_entries !! i = Some e ->
      res !! i = Some (enrich_entry sc_set_list e s)) /\
   (forall i, ~ In i idxs -> res !! i = sc_entries !! i)).
Proof.
  assert (H : List.Forall (fun e => content_snippet e = None) sc_entries)
    by (repeat constructor).
  split; [exact H|].
  exact (EnrichmentClaims.enrichment_partial_success sc_set_list sc_st sc_net sc_entries H).
Defined.

Lemma enrichment_replaces_tags_witness :
  bluesky_indices sc_entries !! 0 = Some 0 /\
  gather_contents sc_st sc_entries sc_net 0 (bluesky_indices sc_entries) !! 0
    = Some (Some "nasa climate research") /\
  "nasa climate research" <> EmptyString /\
  sc_entries !! 0 = Some sc_e1 /\
  (let combined := lower (url sc_e1 ++ " " ++ title sc_e1 ++ " " ++ "nasa climate research")%string in
   exists e', process_bluesky_entries sc_set_list sc_st sc_net sc_entries !! 0 = Some e' /\
     themes e' = Classifier.themes_enriched combined (lower "nasa climate research") /\
     keywords e' = firstn 3 (sc_set_list (Classifier.keyword_matches combined)) /\
     content_snippet e' = Some "nasa climate research").
Proof.
  assert (Hk : bluesky_indices sc_entries !! 0 = Some 0) by (vm_compute; reflexivity).
  assert (Hc : gather_contents sc_st sc_entries sc_net 0 (bluesky_indices sc_entries) !! 0
               = Some (Some "nasa climate research")) by (vm_compute; reflexivity).
  assert (Hs : "nasa climate research" <> EmptyString) by discriminate.
  assert (He : sc_entries !! 0 = Some sc_e1) by reflexivity.
  split; [exact Hk|]. split; [exact Hc|]. split; [exact Hs|]. split; [exact He|].
  exact (EnrichmentClaims.enrichment_replaces_tags sc_set_list sc_st sc_net sc_entries
           0 0 "nasa climate research" sc_e1 Hk Hc Hs He).
Defined.

Lemma fetch_failure_not_cached_witness :
  fst (fetch_bluesky_content sc_st "https://bsky.app/profile/y/post/2" NetError) = None /\
  (let st' := snd (fetch_bluesky_content sc_st "https://bsky.app/profile/y/post/2" NetError) in
   cache st' = cache sc_st /\
   cache st' !! "https://bsky.app/profile/y/post/2" = None /\
   requests st' = requests sc_st ++ ["https://bsky.app/profile/y/post/2"] /\
   (forall net', requests (snd (fetch_bluesky_content st' "https://bsky.app/profile/y/post/2" net'))
                 = requests st' ++ ["https://bsky.app/profile/y/post/2"]) /\
   (forall st0 net0 c,
      fst (fetch_bluesky_content st0 "https://bsky.app/profile/y/post/2" net0) = Some c ->
      cache (snd (fetch_bluesky_content st0 "https://bsky.app/profile/y/post/2" net0))
      = <["https://bsky.app/profile/y/post/2" := c]> (cache st0))).
Proof.
  assert (H : fst (fetch_bluesky_content sc_st "https://bsky.app/profile/y/post/2" NetError) = None)
    by (vm_compute; reflexivity).
  split; [exact H|].
  exact (CacheClaims.fetch_failure_not_cached sc_st _ NetError H).
Defined.

Lemma theme_summary_falls_back_witness :
  Summary.assoc "science" Summary.THEME_INFO
    = Some (Summary.mkInfo "Scientific Research and Space Programs" 3
              "Changes to NSF, NASA, climate research, and federal research funding") /\
  List.Forall Summary.well_formed sc_sentries /\
  (exists fb, Summary.generate_fallback_summary "science" sc_sentries = Summary.Ok fb /\
    forall api_key api, exists prompt,
      Summary.generate_theme_summary_with_claude api_key api "science" sc_sentries =
      match api_key with
      | None => Summary.Ok fb
      | Some k =>
          if String.eqb k EmptyString then Summary.Ok fb
          else match api prompt with
               | Summary.ApiResponse status (Some t) =>
                   if (status =? 200)%Z then Summary.Ok t else Summary.Ok fb
               | _ => Summary.Ok fb
               end
      end).
Proof.
  assert (Hi : Summary.assoc "science" Summary.THEME_INFO
    = Some (Summary.mkInfo "Scientific Research and Space Programs" 3
              "Changes to NSF, NASA, climate research, and federal research funding"))
    by reflexivity.
  assert (Hw : List.Forall Summary.well_formed sc_sentries)
    by (repeat constructor; discriminate).
  split; [exact Hi|]. split; [exact Hw|].
  exact (SummaryClaims.theme_summary_falls_back "science" _ sc_sentries Hi Hw).
Defined.
End Witnesses.

(* ================================================================== *)
(** * Further properties of the pipeline *)

(* ------------------------------------------------------------------ *)
(** ** Strings *)

Module StringFacts.
Local Open Scope nat_scope.

Lemma app_cons (x : ascii) (a b : string) : (String x a ++ b)%string = String x (a ++ b).
Proof. reflexivity. Qed.

Lemma app_empty (b : string) : (EmptyString ++ b)%string = b.
Proof. reflexivity. Qed.

Lemma app_assoc_s (a b c : string) : ((a ++ b) ++ c)%string = (a ++ b ++ c)%string.
Proof. induction a as [|x a IH]; [reflexivity|]. rewrite !app_cons, IH. reflexivity. Qed.

Lemma app_nil_s (a : string) : (a ++ EmptyString)%string = a.
Proof. induction a as [|x a IH]; [reflexivity|]. rewrite app_cons, IH. reflexivity. Qed.

Lemma list_ascii_app (a b : string) :
  list_ascii_of_string (a ++ b) = (list_ascii_of_string a ++ list_ascii_of_string b)%list.
Proof. induction a as [|x a IH]; [reflexivity|]. rewrite app_cons. simpl. rewrite IH. reflexivity. Qed.

Lemma string_of_list_app (a b : list ascii) :
  string_of_list_ascii (a ++ b)%list = (string_of_list_ascii a ++ string_of_list_ascii b)%string.
Proof. induction a as [|x a IH]; [reflexivity|]. simpl. rewrite IH. reflexivity. Qed.

Lemma lower_app (a b : string) : lower (a ++ b) = (lower a ++ lower b)%string.
Proof. induction a as [|x a IH]; [reflexivity|]. rewrite app_cons. simpl. rewrite IH. reflexivity. Qed.

Lemma append_length_s (a b : string) :
  String.length (a ++ b) = String.length a + String.length b.
Proof. induction a as [|x a IH]; [reflexivity|]. rewrite app_cons. simpl. rewrite IH. reflexivity. Qed.

(** [c in s] for a single character. *)
Lemma contains_char (c : ascii) (s : string) :
  contains (String c EmptyString) s = existsb (Ascii.eqb c) (list_ascii_of_string s).
Proof.
  induction s as [|d s IH]; [reflexivity|].
  change (contains (String c EmptyString) (String d s))
    with ((Ascii.eqb c d && true) || contains (String c EmptyString) s).
  rewrite IH, Bool.andb_true_r. reflexivity.
Qed.

Lemma contains_app_l (p a b : string) : contains p a = true -> contains p (a ++ b) = true.
Proof.
  rewrite !ContainsFacts.contains_spec. intros (pre & post & ->).
  exists pre, (post ++ b)%string. rewrite !app_assoc_s. reflexivity.
Qed.

Lemma str_take_length n s : String.length (str_take n s) <= n.
Proof.
  revert s. induction n as [|n IH]; intros [|c s]; simpl; try lia.
  specialize (IH s). lia.
Qed.
End StringFacts.

(* ------------------------------------------------------------------ *)
(** ** The shape of an extracted date *)

Module DateFormatFacts.
Import DateExtractor.
Local Open Scope Z_scope.

Lemma forallb_range (P : Z -> bool) a n :
  forallb P (map (fun k => a + Z.of_nat k) (seq 0 n)) = true ->
  forall y, a <= y < a + Z.of_nat n -> P y = true.
Proof.
  intros H y Hy. rewrite List.forallb_forall in H. apply H. apply in_map_iff.
  exists (Z.to_nat (y - a)). split; [lia|]. apply List.in_seq. lia.
Qed.

(** Every plausible candidate, rendered, is a [YYYY-MM-DD] string that
    the second pattern reads back from [/YYYY-MM-DD]. *)
Lemma format_date_all :
  forallb (fun y => forallb (fun mo => forallb (fun d =>
     let s := format_date (y, mo, d) in
     (String.length s =? 10)%nat
     && match String.get 4 s with Some c => Ascii.eqb c "-" | None => false end
     && match String.get 7 s with Some c => Ascii.eqb c "-" | None => false end
     && forallb (fun i => match String.get i s with Some c => is_digit c | None => false end)
                [0; 1; 2; 3; 5; 6; 8; 9]%nat
     && match extract_date ("/" ++ s) with Some s' => String.eqb s' s | None => false end)
    (map (fun k => 1 + Z.of_nat k) (seq 0 31)))
    (map (fun k => 1 + Z.of_nat k) (seq 0 12)))
    (map (fun k => 2024 + Z.of_nat k) (seq 0 3)) = true.
Proof. vm_compute. reflexivity. Qed.

(** X2. A date returned by [extract_date] is always a ten-character
    [YYYY-MM-DD] string, month and day zero-padded, with digits around
    the two dashes (so never empty, and [if e.date] counts exactly the
    entries with a date); scanning ["/" ++ s] for a date gives [s] back. *)
Theorem extract_date_format (u s : string) (H : extract_date u = Some s) :
  String.length s = 10%nat /\
  String.get 4 s = Some "-"%char /\ String.get 7 s = Some "-"%char /\
  (forall i, In i [0; 1; 2; 3; 5; 6; 8; 9]%nat ->
     exists c, String.get i s = Some c /\ is_digit c = true) /\
  s <> EmptyString /\
  extract_date ("/" ++ s) = Some s.
Proof.
  apply DateClaims.try_patterns_spec in H.
  destruct H as (k & [[y mo] d] & _ & Hc & -> & _).
  destruct (DateClaims.plausible_bounds y mo d Hc) as (Hy & Hm & Hd).
  pose proof (forallb_range _ _ _ format_date_all y ltac:(simpl; lia)) as H1. cbv beta in H1.
  pose proof (forallb_range _ _ _ H1 mo ltac:(simpl; lia)) as H2. cbv beta in H2.
  pose proof (forallb_range _ _ _ H2 d ltac:(simpl; lia)) as H3. cbv beta zeta in H3.
  rewrite !Bool.andb_true_iff in H3.
  destruct H3 as [[[[Hl H4] H7] Hdig] Hre].
  apply Nat.eqb_eq in Hl.
  split; [exact Hl|]. split; [|split; [|split; [|split]]].
  - destruct (String.get 4 _) as [c|]; [|discriminate]. apply Ascii.eqb_eq in H4. subst. reflexivity.
  - destruct (String.get 7 _) as [c|]; [|discriminate]. apply Ascii.eqb_eq in H7. subst. reflexivity.
  - intros i Hi. rewrite List.forallb_forall in Hdig. specialize (Hdig i Hi).
    destruct (String.get i _) as [c|]; [|discriminate]. eauto.
  - intros He. rewrite He in Hl. discriminate.
  - destruct (extract_date _) as [s'|]; [|discriminate]. apply String.eqb_eq in Hre. subst. reflexivity.
Qed.
End DateFormatFacts.

(* ------------------------------------------------------------------ *)
(** ** The fields of a parsed entry *)

Module ParserFieldFacts.
Import EntryParser StringFacts.
Local Open Scope nat_scope.

Lemma span_spec f s :
  s = (fst (span f s) ++ snd (span f s))%string /\
  forallb f (list_ascii_of_string (fst (span f s))) = true.
Proof.
  induction s as [|c s IH]; [split; reflexivity|]. simpl.
  destruct (f c) eqn:Hf; [|split; reflexivity].
  destruct (span f s) as [a b]. simpl in *. destruct IH as [IH1 IH2].
  rewrite app_cons, <- IH1. split; [reflexivity|]. rewrite Hf, IH2. reflexivity.
Qed.

Lemma m_plus_spec f s a b :
  m_plus f s = Some (a, b) ->
  a <> EmptyString /\ forallb f (list_ascii_of_string a) = true /\ s = (a ++ b)%string.
Proof.
  unfold m_plus. pose proof (span_spec f s) as [H1 H2].
  destruct (span f s) as [a' b']. simpl in *.
  destruct a' as [|c a']; [discriminate|]. intros H. injection H as <- <-.
  split; [discriminate|]. split; assumption.
Qed.

Lemma no_char_of_forallb (x : ascii) l :
  forallb (fun c => negb (Ascii.eqb c x)) l = true -> existsb (Ascii.eqb x) l = false.
Proof.
  induction l as [|c l IH]; simpl; [reflexivity|].
  rewrite Bool.andb_true_iff. intros [Hc Hl]. rewrite (IH Hl), Bool.orb_false_r.
  destruct (Ascii.eqb x c) eqn:E; [|reflexivity].
  apply Ascii.eqb_eq in E. subst. rewrite Ascii.eqb_refl in Hc. discriminate.
Qed.

Lemma m_line_fields s u t :
  m_line s = Some (u, t) ->
  u <> EmptyString /\ contains (String dq EmptyString) u = false /\
  t <> EmptyString /\ contains "<" t = false.
Proof.
  unfold m_line.
  destruct (m_plus is_digit s) as [[? r1]|]; [|discriminate]. cbn [mbind option_bind].
  destruct (m_lit "." r1) as [r2|]; [|discriminate]. cbn [mbind option_bind].
  destruct (m_lit _ (snd (span is_space r2))) as [r4|]; [|discriminate]. cbn [mbind option_bind].
  destruct (m_plus (fun c => negb (Ascii.eqb c dq)) r4) as [[u' r5]|] eqn:Hu; [|discriminate].
  cbn [mbind option_bind].
  destruct (m_lit _ r5) as [r6|]; [|discriminate]. cbn [mbind option_bind].
  destruct (m_plus (fun c => negb (Ascii.eqb c "<")) r6) as [[t' r7]|] eqn:Ht; [|discriminate].
  cbn [mbind option_bind].
  destruct (m_lit "</a>" r7); [|discriminate]. cbn [mbind option_bind].
  intros H. injection H as <- <-.
  destruct (m_plus_spec _ _ _ _ Hu) as (Hu1 & Hu2 & _).
  destruct (m_plus_spec _ _ _ _ Ht) as (Ht1 & Ht2 & _).
  split; [exact Hu1|]. split; [rewrite contains_char; apply no_char_of_forallb; exact Hu2|].
  split; [exact Ht1|]. rewrite contains_char. apply no_char_of_forallb. exact Ht2.
Qed.

Lemma parse_lines_entry i ls e :
  In e (parse_lines i ls) ->
  exists line, In line ls /\ m_line (strip line) = Some (url e, title e) /\
    date e = DateExtractor.extract_date (url e) /\
    themes e = [] /\ keywords e = [] /\ content_snippet e = None.
Proof.
  revert i. induction ls as [|l ls IH]; intros i He; simpl in He; [contradiction|].
  destruct (m_line (strip l)) as [[u t]|] eqn:Hm.
  - destruct He as [<-|He].
    + exists l. simpl. split; [left; reflexivity|]. split; [exact Hm|]. repeat split.
    + destruct (IH (S i) He) as (line & Hin & Hrest). exists line. split; [right; exact Hin|exact Hrest].
  - destruct (IH (S i) He) as (line & Hin & Hrest). exists line. split; [right; exact Hin|exact Hrest].
Qed.

(** X3. Every parsed entry has a non-empty URL without a double quote
    and a non-empty title without a [<] (the two character classes of
    the line pattern), its date is [extract_date] of its URL,
    and it starts with no theme, no keyword and no content snippet. *)
Theorem parsed_entry_fields (text : string) (e : NewsEntry)
    (He : In e (parse_input_file text)) :
  url e <> EmptyString /\ contains (String dq EmptyString) (url e) = false /\
  title e <> EmptyString /\ contains "<" (title e) = false /\
  date e = DateExtractor.extract_date (url e) /\
  themes e = [] /\ keywords e = [] /\ content_snippet e = None.
Proof.
  destruct (parse_lines_entry 1 _ e He) as (line & _ & Hm & Hrest).
  destruct (m_line_fields _ _ _ Hm) as (H1 & H2 & H3 & H4).
  repeat split; assumption || apply Hrest.
Qed.
End ParserFieldFacts.

(* ------------------------------------------------------------------ *)
(** ** Reading lines *)

Module ReadlinesFacts.
Import EntryParser StringFacts.
Local Open Scope nat_scope.

Lemma rev_string_cons c cur :
  rev_string (String c cur) = (rev_string cur ++ String c EmptyString)%string.
Proof. unfold rev_string. simpl. rewrite string_of_list_app. reflexivity. Qed.

Lemma split_concat cur s :
  fold_right String.append EmptyString (split_lines_aux cur s) = (rev_string cur ++ s)%string.
Proof.
  revert cur. induction s as [|c s IH]; intros cur; simpl.
  - destruct cur as [|d cur]; [reflexivity|]. simpl. rewrite app_nil_s. reflexivity.
  - destruct (Ascii.eqb c "010"%char) eqn:E; simpl.
    + rewrite IH, rev_string_cons, app_assoc_s. reflexivity.
    + rewrite IH, rev_string_cons, app_assoc_s. reflexivity.
Qed.

Lemma existsb_rev_string f cur :
  existsb f (list_ascii_of_string (rev_string cur)) = existsb f (list_ascii_of_string cur).
Proof.
  unfold rev_string. rewrite list_ascii_of_string_of_list_ascii.
  induction (list_ascii_of_string cur) as [|x l IH]; simpl; [reflexivity|].
  rewrite existsb_app, IH. simpl. rewrite Bool.orb_false_r, Bool.orb_comm. reflexivity.
Qed.

Lemma split_lines_shape cur s k l :
  existsb (Ascii.eqb "010"%char) (list_ascii_of_string cur) = false ->
  split_lines_aux cur s !! k = Some l ->
  l <> EmptyString /\
  exists body, contains (String "010"%char EmptyString) body = false /\
    (l = (body ++ String "010"%char EmptyString)%string \/
     (l = body /\ S k = List.length (split_lines_aux cur s))).
Proof.
  revert cur k. induction s as [|c s IH]; intros cur k Hcur Hk; simpl in Hk |- *.
  - destruct cur as [|d cur]; [discriminate|].
    destruct k as [|k]; [|destruct k; discriminate]. simpl in Hk. injection Hk as <-.
    split.
    + intros H. assert (Hl : String.length (rev_string (String d cur)) = 0) by (rewrite H; reflexivity).
      rewrite rev_string_cons, append_length_s in Hl. simpl in Hl. lia.
    + exists (rev_string (String d cur)). split; [|right; split; reflexivity].
      rewrite contains_char, existsb_rev_string. exact Hcur.
  - destruct (Ascii.eqb c "010"%char) eqn:E.
    + apply Ascii.eqb_eq in E. subst c. destruct k as [|k].
      * simpl in Hk. injection Hk as <-. rewrite rev_string_cons. split.
        -- intros H. assert (Hl : String.length (rev_string cur ++ String "010"%char EmptyString) = 0)
             by (rewrite H; reflexivity).
           rewrite append_length_s in Hl. simpl in Hl. lia.
        -- exists (rev_string cur). split; [|left; reflexivity].
           rewrite contains_char, existsb_rev_string. exact Hcur.
      * simpl in Hk. destruct (IH EmptyString k eq_refl Hk) as [Hne (body & Hb & Hor)].
        split; [exact Hne|]. exists body. split; [exact Hb|].
        destruct Hor as [Hl|[Hl Hlen]]; [left; exact Hl|right; split; [exact Hl|simpl; lia]].
    + apply (IH (String c cur) k); [|exact Hk].
      cbn [existsb list_ascii_of_string]. rewrite Hcur, Bool.orb_false_r, Ascii.eqb_sym. exact E.
Qed.

Lemma un_cr s' :
  universal_newlines (String "013"%char s')
  = String "010"%char (match s' with
                       | String d s'' =>
                           if Ascii.eqb d "010"%char then universal_newlines s''
                           else universal_newlines s'
                       | EmptyString => EmptyString
                       end).
Proof. destruct s' as [|d s'']; [reflexivity|]. simpl. destruct (Ascii.eqb d "010"%char); reflexivity. Qed.

Lemma un_other c s :
  Ascii.eqb c "013"%char = false -> universal_newlines (String c s) = String c (universal_newlines s).
Proof. intros Ec. simpl. rewrite Ec. reflexivity. Qed.

Lemma universal_newlines_no_cr n s :
  String.length s <= n ->
  existsb (Ascii.eqb "013"%char) (list_ascii_of_string (universal_newlines s)) = false.
Proof.
  revert s. induction n as [|n IH]; intros s Hs.
  - destruct s; [reflexivity|simpl in Hs; lia].
  - destruct s as [|c s]; [reflexivity|]. simpl in Hs.
    destruct (Ascii.eqb c "013"%char) eqn:Ec.
    + apply Ascii.eqb_eq in Ec. subst c. rewrite un_cr.
      destruct s as [|d s'']; [reflexivity|].
      destruct (Ascii.eqb d "010"%char);
        cbn [list_ascii_of_string existsb]; rewrite IH by (simpl in *; lia); reflexivity.
    + rewrite (un_other c s Ec). cbn [list_ascii_of_string existsb].
      rewrite IH by lia. rewrite Bool.orb_false_r, Ascii.eqb_sym. exact Ec.
Qed.

Lemma concat_no_char f ls :
  existsb f (list_ascii_of_string (fold_right String.append EmptyString ls)) = false ->
  forall l, In l ls -> existsb f (list_ascii_of_string l) = false.
Proof.
  induction ls as [|x ls IH]; simpl; intros H l Hl; [contradiction|].
  rewrite list_ascii_app, existsb_app, Bool.orb_false_iff in H.
  destruct Hl as [<-|Hl]; [exact (proj1 H)|exact (IH (proj2 H) l Hl)].
Qed.

(** X1. [f.readlines()] in text mode splits the newline-translated text
    into non-empty lines whose concatenation is that text: no line holds
    a carriage return, every line ends in its only line feed, and only
    the last line may lack one. *)
Theorem readlines_split (text : string) :
  let lines := readlines text in
  fold_right String.append EmptyString lines = universal_newlines text /\
  (forall k l, lines !! k = Some l ->
     l <> EmptyString /\ contains (String "013"%char EmptyString) l = false /\
     exists body, contains (String "010"%char EmptyString) body = false /\
       (l = (body ++ String "010"%char EmptyString)%string \/
        (l = body /\ S k = List.length lines))).
Proof.
  intros lines. assert (Hc : fold_right String.append EmptyString lines = universal_newlines text)
    by (unfold lines, readlines; rewrite split_concat; reflexivity).
  split; [exact Hc|]. intros k l Hk.
  destruct (split_lines_shape EmptyString (universal_newlines text) k l eq_refl Hk) as [Hne Hb].
  split; [exact Hne|]. split; [|exact Hb].
  rewrite contains_char. apply (concat_no_char _ lines).
  - rewrite Hc. apply (universal_newlines_no_cr (String.length text)).
    lia.
  - apply list_elem_of_In. apply list_elem_of_lookup. eauto.
Qed.
End ReadlinesFacts.

(* ------------------------------------------------------------------ *)
(** ** What the two taggings produce *)

Module TaggingFacts.
Import Classifier SortFacts StringFacts.
Local Open Scope nat_scope.

Lemma themes_keys_nodup : List.NoDup (map fst THEMES).
Proof. apply NoDup_ListNoDup. apply (bool_decide_unpack _). vm_compute. exact I. Qed.

Lemma theme_scores_keys score ths :
  List.NoDup (map fst ths) ->
  List.NoDup (map fst (theme_scores_of score ths)) /\
  (forall t, In t (map fst (theme_scores_of score ths)) -> In t (map fst ths)).
Proof.
  induction ths as [|[t ps] ths IH]; simpl; [split; [constructor|tauto]|].
  intros Hnd. inversion Hnd as [|? ? Ht Hnd']; subst. destruct (IH Hnd') as [IH1 IH2].
  destruct (0 <? score ps); simpl.
  - split; [constructor; [intros Hin; exact (Ht (IH2 t Hin))|exact IH1]|].
    intros t' [<-|Hin]; [left; reflexivity|right; exact (IH2 t' Hin)].
  - split; [exact IH1|]. intros t' Hin. right. exact (IH2 t' Hin).
Qed.

Lemma in_firstn_in {A} n (l : list A) x : In x (firstn n l) -> In x l.
Proof. intros H. rewrite <- (firstn_skipn n l). apply in_or_app. left. exact H. Qed.

Lemma list_nodup_firstn {A} n (l : list A) : List.NoDup l -> List.NoDup (firstn n l).
Proof.
  intros H. rewrite <- (firstn_skipn n l) in H. apply NoDup_ListNoDup.
  apply NoDup_ListNoDup in H. apply NoDup_app in H. exact (proj1 H).
Qed.

(** The first two ranked themes, for any scoring. *)
Lemma ranked_themes_keys score :
  let ths := firstn 2 (map fst (sort_desc (theme_scores_of score THEMES))) in
  NoDup ths /\ Forall (fun t => In t (map fst THEMES)) ths.
Proof.
  intros ths. destruct (theme_scores_keys score THEMES themes_keys_nodup) as [H1 H2].
  destruct (sort_desc_spec (theme_scores_of score THEMES)) as [Hp _].
  pose proof (Permutation_map fst Hp) as Hpm.
  split.
  - apply NoDup_ListNoDup. apply list_nodup_firstn.
    apply (Permutation_NoDup (Permutation_sym Hpm)). exact H1.
  - apply List.Forall_forall. intros t Ht. apply in_firstn_in in Ht.
    apply H2. exact (Permutation_in _ Hpm Ht).
Qed.

Lemma keyword_matches_keys text k :
  In k (keyword_matches text) -> In k (map fst KEYWORD_PATTERNS).
Proof.
  unfold keyword_matches. rewrite in_flat_map. intros [[kw ps] [Hin Hk]].
  destruct (existsb _ ps); [|contradiction]. destruct Hk as [<-|[]].
  apply in_map_iff. exists (kw, ps). split; [reflexivity|exact Hin].
Qed.

Lemma theme_scores_nil score ths :
  theme_scores_of score ths = [] <-> forallb (fun tp => score (snd tp) =? 0) ths = true.
Proof.
  induction ths as [|[t ps] ths IH]; simpl; [split; reflexivity|].
  destruct (score ps) as [|n] eqn:Hs; simpl.
  - exact IH.
  - split; discriminate.
Qed.

Lemma score_with_zero cond w ps :
  (forall p, 1 <= w p) ->
  (score_with cond w ps =? 0) = forallb (fun p => negb (cond p)) ps.
Proof.
  intros Hw. unfold score_with.
  assert (H : forall acc, (fold_left (fun acc p => if cond p then acc + w p else acc) ps acc =? 0)
                          = (acc =? 0) && forallb (fun p => negb (cond p)) ps).
  { induction ps as [|p ps IH]; intros acc; simpl; [rewrite Bool.andb_true_r; reflexivity|].
    destruct (cond p); simpl.
    - rewrite IH. specialize (Hw p).
      replace (acc + w p =? 0) with false by (symmetry; apply Nat.eqb_neq; lia).
      rewrite Bool.andb_false_r. reflexivity.
    - apply IH. }
  rewrite H. reflexivity.
Qed.

Lemma forallb_ext_l {A} (f g : A -> bool) l :
  (forall x, f x = g x) -> forallb f l = forallb g l.
Proof. intros H. induction l as [|x l IH]; simpl; [reflexivity|]. rewrite H, IH. reflexivity. Qed.

Lemma ranked_nil score :
  firstn 2 (map fst (sort_desc (theme_scores_of score THEMES))) = [] <->
  theme_scores_of score THEMES = [].
Proof.
  destruct (sort_desc_spec (theme_scores_of score THEMES)) as [Hp _].
  split.
  - intros H. destruct (sort_desc (theme_scores_of score THEMES)) as [|x l] eqn:E; [|discriminate].
    apply Permutation_nil. exact Hp.
  - intros H. rewrite H. reflexivity.
Qed.

Lemma no_pattern_app a b :
  no_theme_pattern (a ++ b) = true -> no_theme_pattern a = true.
Proof.
  unfold no_theme_pattern. rewrite !List.forallb_forall. intros H tp Htp.
  specialize (H tp Htp). rewrite List.forallb_forall in *. intros p Hp.
  specialize (H p Hp). destruct (contains p a) eqn:E; [|reflexivity].
  rewrite (contains_app_l p a b E) in H. discriminate.
Qed.

Section WithSetOrder.
Variable set_list : list string -> list string.
Hypothesis set_list_sub : forall l x, In x (set_list l) -> In x l.

Lemma keywords_keys text :
  Forall (fun k => In k (map fst KEYWORD_PATTERNS)) (firstn 3 (set_list (keyword_matches text))).
Proof.
  apply List.Forall_forall. intros k Hk. apply in_firstn_in, set_list_sub in Hk.
  exact (keyword_matches_keys text k Hk).
Qed.


(** X5. The enriched re-tagging keeps the id, URL, title, date and
    snippet, and sets distinct [THEMES] keys as themes and
    [KEYWORD_PATTERNS] keys as keywords. Its themes are empty exactly
    when no theme pattern occurs in the lowercased URL, title and
    content; in particular an entry whose URL and title already matched
    a theme pattern never loses all its themes. *)
Theorem enriched_tags_result (e : NewsEntry) (content : string) :
  let e' := tag_entry_with_content set_list e content in
  let combined := lower (url e ++ " " ++ title e ++ " " ++ content) in
  id e' = id e /\ url e' = url e /\ title e' = title e /\ date e' = date e /\
  content_snippet e' = content_snippet e /\
  NoDup (themes e') /\
  Forall (fun t => In t (map fst THEMES)) (themes e') /\
  Forall (fun k => In k (map fst KEYWORD_PATTERNS)) (keywords e') /\
  (themes e' = [] <-> no_theme_pattern combined = true) /\
  (themes_text (lower (url e ++ " " ++ title e)) <> [] -> themes e' <> []).
Proof.
  intros e' combined.
  set (score := score_with (fun p => contains p combined)
                  (fun p => if contains p (lower content) then 2 else 1)).
  assert (Hth : themes e' = firstn 2 (map fst (sort_desc (theme_scores_of score THEMES))))
    by reflexivity.
  pose proof (ranked_themes_keys score) as [Hnd Hin].
  assert (Hiff : themes e' = [] <-> no_theme_pattern combined = true).
  { rewrite Hth, ranked_nil, theme_scores_nil. unfold no_theme_pattern.
    assert (Hext : forallb (fun tp => score (snd tp) =? 0) THEMES
                   = forallb (fun tp => forallb (fun p => negb (contains p combined)) (snd tp)) THEMES).
    { apply forallb_ext_l. intros tp. unfold score. apply score_with_zero.
      intros p. destruct (contains p (lower content)); lia. }
    rewrite Hext. reflexivity. }
  split; [reflexivity|]. split; [reflexivity|]. split; [reflexivity|]. split; [reflexivity|].
  split; [reflexivity|]. split; [rewrite Hth; exact Hnd|]. split; [rewrite Hth; exact Hin|].
  split; [exact (keywords_keys combined)|]. split; [exact Hiff|].
  intros Htext Hnil. apply Htext. apply Hiff in Hnil.
  assert (Hc : combined = (lower (url e ++ " " ++ title e) ++ lower (" " ++ content))%string)
    by (unfold combined; rewrite <- lower_app, !app_assoc_s; reflexivity).
  rewrite Hc in Hnil. apply no_pattern_app in Hnil.
  unfold themes_text. rewrite (FallbackClaims.no_pattern_no_scores _ Hnil). reflexivity.
Qed.
End WithSetOrder.
End TaggingFacts.

(* ------------------------------------------------------------------ *)
(** ** Fetched content *)

Module FetchFacts.
Import Enricher StringFacts.
Local Open Scope nat_scope.
Local Open Scope list_scope.

Lemma select_content_bounded soup sels c :
  select_content soup sels = Some (Some c) -> String.length c <= 500.
Proof.
  induction sels as [|sel sels IH]; intros H; [discriminate|].
  cbn [select_content] in H.
  destruct (soup sel) as [el|]; [|exact (IH H)].
  destruct (String.eqb (el_name el) "meta");
    [destruct (el_content el) as [c'|]; [|discriminate]|];
    match type of H with
    | Some (Some ?x) = Some (Some c) =>
        assert (E : x = c) by congruence; rewrite <- E; apply str_take_length
    end.
Qed.

(** X6. When the first selector that finds an element gives an empty text,
    [fetch_bluesky_content] caches the empty string. The entry is not
    enriched ([if content:] is false), and every later fetch of that URL
    returns the empty string from the cache without a request, so the post is
    never fetched again. *)
Theorem empty_extraction_cached (st : State) (u : string) (soup : Soup)
    (Hmiss : cache st !! u = None)
    (Hsel : select_content soup content_selectors = Some (Some EmptyString)) :
  let r := fetch_bluesky_content st u (Response 200 (Some soup)) in
  fst r = Some EmptyString /\ truthy (fst r) = false /\
  cache (snd r) = <[u := EmptyString]> (cache st) /\
  requests (snd r) = requests st ++ [u] /\
  (forall net', fetch_bluesky_content (snd r) u net' = (Some EmptyString, snd r)).
Proof.
  intros r.
  assert (Hr : r = (Some EmptyString,
                    mkState (<[u := EmptyString]> (cache st)) (requests st ++ [u]))).
  { unfold r, fetch_bluesky_content. rewrite Hmiss, Hsel. reflexivity. }
  rewrite Hr. simpl. split; [reflexivity|]. split; [reflexivity|].
  split; [reflexivity|]. split; [reflexivity|].
  intros net'. unfold fetch_bluesky_content. simpl. rewrite lookup_insert_eq. reflexivity.
Qed.

(** X7. Every text [fetch_bluesky_content] returns, and every text in
    the cache, has at most 500 characters, provided the cache held no
    longer one before. *)
Theorem fetched_content_bounded (st : State) (u : string) (net : HttpOutcome) (c : string)
    (Hcache : forall k v, cache st !! k = Some v -> String.length v <= 500)
    (Hr : fst (fetch_bluesky_content st u net) = Some c) :
  String.length c <= 500 /\
  (forall k v, cache (snd (fetch_bluesky_content st u net)) !! k = Some v ->
     String.length v <= 500).
Proof.
  revert Hr. unfold fetch_bluesky_content.
  destruct (cache st !! u) as [v|] eqn:Hc.
  - cbn [fst snd]. intros H. injection H as <-. split; [exact (Hcache u v Hc)|exact Hcache].
  - destruct net as [|status body]; [discriminate|].
    destruct (status =? 200)%Z; [|discriminate].
    destruct body as [soup|]; [|discriminate].
    destruct (select_content soup content_selectors) as [[c'|]|] eqn:Hs; try discriminate.
    cbn [fst snd]. intros H. injection H as <-.
    pose proof (select_content_bounded _ _ _ Hs) as Hb.
    split; [exact Hb|]. intros k v Hk. cbn [cache] in Hk.
    destruct (decide (k = u)) as [->|Hne].
    + rewrite lookup_insert_eq in Hk. injection Hk as <-. exact Hb.
    + rewrite lookup_insert_ne in Hk by congruence. exact (Hcache k v Hk).
Qed.
End FetchFacts.

(* ------------------------------------------------------------------ *)
(** ** The whole of [process] *)

Module PipelineFacts.
Import Classifier Enricher Pipeline Invariants StringFacts TaggingFacts FetchFacts EnricherFacts.
Local Open Scope nat_scope.
Local Open Scope list_scope.

Lemma fetch_fst_bounded st u net c :
  (forall k v, cache st !! k = Some v -> String.length v <= 500) ->
  fst (fetch_bluesky_content st u net) = Some c -> String.length c <= 500.
Proof.
  intros Hcache. unfold fetch_bluesky_content.
  destruct (cache st !! u) as [v|] eqn:Hc.
  - cbn [fst]. intros H. injection H as <-. exact (Hcache u v Hc).
  - destruct net as [|status body]; [discriminate|].
    destruct (status =? 200)%Z; [|discriminate].
    destruct body as [soup|]; [|discriminate].
    destruct (select_content soup content_selectors) as [[c'|]|] eqn:Hs; try discriminate.
    cbn [fst]. intros H. injection H as <-. exact (select_content_bounded _ _ _ Hs).
Qed.

Lemma gather_bounded st0 entries net k idxs n s :
  (forall k v, cache st0 !! k = Some v -> String.length v <= 500) ->
  gather_contents st0 entries net k idxs !! n = Some (Some s) -> String.length s <= 500.
Proof.
  intros Hcache. revert k n. induction idxs as [|i idxs IH]; intros k n H; [discriminate|].
  destruct n as [|n]; cbn [gather_contents lookup list_lookup] in H.
  - injection H as H. exact (fetch_fst_bounded _ _ _ _ Hcache H).
  - exact (IH _ _ H).
Qed.



Lemma tag_all_forall2 set_list es ts :
  tag_all set_list es = Some ts -> Forall2 (fun e t => tag_entry set_list e = Some t) es ts.
Proof.
  revert ts. induction es as [|e es IH]; intros ts H; cbn [tag_all] in H.
  - injection H as <-. constructor.
  - destruct (tag_entry set_list e) as [e'|] eqn:He; cbn [mbind option_bind] in H; [|discriminate].
    destruct (tag_all set_list es) as [ts'|]; cbn [mbind option_bind] in H; [|discriminate].
    injection H as <-. constructor; [exact He|exact (IH _ eq_refl)].
Qed.


Section WithSetOrder.
Variable set_list : list string -> list string.
Hypothesis set_list_sub : forall l x, In x (set_list l) -> In x l.

Lemma tag_entry_some e e' :
  tag_entry set_list e = Some e' ->
  same_fields e e' /\ content_snippet e' = content_snippet e /\
  tags_ok e' /\ themes e' <> [].
Proof.
  unfold tag_entry.
  set (text := lower (url e ++ " " ++ title e)).
  pose proof (ranked_themes_keys (score_with (fun p => contains p text) (fun _ => 1))) as [Hnd Hin].
  fold (themes_text text) in Hnd, Hin.
  destruct (themes_text text) as [|t ts] eqn:Ht.
  - destruct (Url.netloc (url e)) as [domain|]; [|discriminate].
    intros H. injection H as <-. cbn.
    split; [repeat split|]. split; [reflexivity|]. split; [|discriminate].
    split; [apply NoDup_singleton|]. split; [|exact (keywords_keys set_list set_list_sub text)].
    constructor; [|constructor]. unfold fallback_theme.
    destruct (contains "supreme" domain || contains "scotus" domain); [vm_compute; tauto|].
    destruct (existsb _ _); vm_compute; tauto.
  - intros H. injection H as <-. cbn.
    split; [repeat split|]. split; [reflexivity|]. split; [|discriminate].
    split; [exact Hnd|]. split; [exact Hin|exact (keywords_keys set_list set_list_sub text)].
Qed.

Lemma retag_props e c :
  same_fields e (tag_entry_with_content set_list e c) /\
  content_snippet (tag_entry_with_content set_list e c) = content_snippet e /\
  tags_ok (tag_entry_with_content set_list e c).
Proof.
  split; [repeat split|]. split; [reflexivity|].
  set (combined := lower (url e ++ " " ++ title e ++ " " ++ c)).
  pose proof (ranked_themes_keys (score_with (fun p => contains p combined)
                (fun p => if contains p (lower c) then 2 else 1))) as [Hnd Hin].
  split; [exact Hnd|]. split; [exact Hin|exact (keywords_keys set_list set_list_sub combined)].
Qed.

(** What [process_bluesky_entries], started on the empty cache, leaves at
    each position: the tagged entry, or, for a Bluesky entry whose fetch
    gave a non-empty text of at most 500 characters, its enrichment with
    that text. *)
Lemma process_bluesky_lookup net ts j e' :
  process_bluesky_entries set_list (mkState ∅ []) net ts !! j = Some e' ->
  exists e, ts !! j = Some e /\
    (e' = e \/ (is_bluesky e = true /\ exists s, s <> EmptyString /\
                  String.length s <= 500 /\ e' = enrich_entry set_list e s)).
Proof.
  rewrite process_as_apply.
  set (idxs := bluesky_indices ts).
  set (cs := gather_contents (mkState ∅ []) ts net 0 idxs).
  destruct (in_dec Nat.eq_dec j idxs) as [Hin|Hout].
  - apply (list_elem_of_In idxs j), list_elem_of_lookup in Hin. destruct Hin as [k Hk].
    assert (Hlen : List.length cs = List.length idxs) by apply gather_length.
    assert (Hkc : is_Some (cs !! k)).
    { apply lookup_lt_is_Some. rewrite Hlen. apply lookup_lt_Some in Hk. exact Hk. }
    destruct Hkc as [c Hc].
    assert (Hb : exists e, ts !! j = Some e /\ is_bluesky e = true).
    { apply bluesky_indices_spec. apply (list_elem_of_In idxs j), list_elem_of_lookup. eauto. }
    destruct Hb as (e & He & Hbl).
    rewrite (apply_contents_at set_list ts idxs cs k j c (bluesky_indices_nodup ts) Hk Hc).
    rewrite He. intros H. exists e. split; [reflexivity|].
    destruct c as [s|]; [|injection H as <-; left; reflexivity].
    destruct (truthy (Some s)) eqn:Ht; injection H as <-; [right|left; reflexivity].
    split; [exact Hbl|]. exists s. split; [|split; [|reflexivity]].
    + intros ->. discriminate.
    + apply (gather_bounded (mkState ∅ []) ts net 0 idxs k s); [|exact Hc].
      intros k' v Hv. cbn [cache] in Hv. rewrite lookup_empty in Hv. discriminate.
  - rewrite (apply_contents_untouched set_list ts idxs cs j Hout). intros H.
    exists e'. split; [exact H|left; reflexivity].
Qed.

Lemma enrich_entry_props e s :
  same_fields e (enrich_entry set_list e s) /\
  content_snippet (enrich_entry set_list e s) = Some s /\
  tags_ok (enrich_entry set_list e s).
Proof.
  unfold enrich_entry.
  destruct (retag_props (mkEntry (id e) (url e) (title e) (date e) (themes e) (keywords e) (Some s)) s)
    as (Hf & Hs & Ht).
  split; [exact Hf|]. split; [exact Hs|exact Ht].
Qed.

Lemma process_result_spec (now : string) (net : nat -> HttpOutcome) (text : string)
    (m : Metadata) (es : list NewsEntry)
    (H : process set_list now net text = Some (m, es)) :
  generated m = now /\ total_entries m = List.length es /\
  meta_themes m = map fst THEMES /\ meta_keywords m = map fst KEYWORD_PATTERNS /\
  Forall2 same_fields (EntryParser.parse_input_file text) es /\
  Forall processed_ok es.
Proof.
  unfold process in H.
  set (parsed := EntryParser.parse_input_file text) in H |- *.
  destruct (tag_all set_list parsed) as [ts|] eqn:Ht; cbn [mbind option_bind] in H; [|discriminate].
  unfold generate_json_data in H. injection H as Hm Hes.
  pose proof (tag_all_forall2 _ _ _ Ht) as F1.
  assert (Hsnip : forall x, In x parsed -> content_snippet x = None).
  { intros x Hx. destruct (ParserFieldFacts.parse_lines_entry 1 _ x Hx) as (_ & _ & _ & Hr).
    apply Hr. }
  assert (Hlook : forall i y, es !! i = Some y ->
            exists x e, parsed !! i = Some x /\ tag_entry set_list x = Some e /\
              (y = e \/ (is_bluesky e = true /\ exists s, s <> EmptyString /\
                           String.length s <= 500 /\ y = enrich_entry set_list e s))).
  { intros i y Hy. rewrite <- Hes in Hy.
    destruct (process_bluesky_lookup net ts i y Hy) as (e & He & Hcase).
    destruct (Forall2_lookup_r _ _ _ _ _ F1 He) as (x & Hx & Hxe).
    exists x, e. split; [exact Hx|]. split; [exact Hxe|exact Hcase]. }
  subst m. cbn [generated total_entries meta_themes meta_keywords].
  split; [reflexivity|]. split; [rewrite Hes; reflexivity|].
  split; [reflexivity|]. split; [reflexivity|]. split.
  - apply Forall2_same_length_lookup. split.
    + rewrite <- Hes, process_as_apply, apply_contents_length.
      exact (Forall2_length _ _ _ F1).
    + intros i x y Hx Hy.
      destruct (Hlook i y Hy) as (x' & e & Hx' & Hxe & Hcase).
      rewrite Hx in Hx'. injection Hx' as <-.
      destruct (tag_entry_some x e Hxe) as ((H1 & H2 & H3 & H4) & _).
      destruct Hcase as [->|(_ & s & _ & _ & ->)];
        [repeat split; assumption|].
      destruct (enrich_entry_props e s) as ((G1 & G2 & G3 & G4) & _).
      repeat split; congruence.
  - apply Forall_lookup. intros i y Hy.
    destruct (Hlook i y Hy) as (x & e & Hx & Hxe & Hcase).
    destruct (tag_entry_some x e Hxe) as ((_ & Hu & _) & Hs & Hok & Hne).
    assert (Hxs : content_snippet x = None).
    { apply Hsnip. apply (list_elem_of_In parsed x). apply list_elem_of_lookup. eauto. }
    destruct Hcase as [->|(Hbl & s & Hs0 & Hs5 & ->)].
    + split; [exact Hok|]. split; [intros _; exact Hne|].
      intros s Hs'. congruence.
    + destruct (enrich_entry_props e s) as ((_ & Gu & _) & Gs & Gok).
      split; [exact Gok|]. split; [intros Hn; congruence|].
      intros s' Hs'. rewrite Gs in Hs'. injection Hs' as <-.
      split; [unfold is_bluesky in *; rewrite Gu; exact Hbl|].
      split; [exact Hs0|exact Hs5].
Qed.

(** X8. When [process] returns, the metadata records the time given,
    the number of entries and the key lists of [THEMES] and
    [KEYWORD_PATTERNS]; the entries are the parsed ones, in the same order
    with the same id, URL, title and date. Every entry has distinct
    [THEMES] keys as themes and [KEYWORD_PATTERNS] keys as keywords; an
    entry with no content snippet has at least one theme, and a snippet
    is only ever set on a Bluesky entry, non-empty and at most 500
    characters long. *)
Theorem process_result (now : string) (net : nat -> HttpOutcome) (text : string)
    (m : Metadata) (es : list NewsEntry)
    (H : process set_list now net text = Some (m, es)) :
  generated m = now /\ total_entries m = List.length es /\
  meta_themes m = map fst THEMES /\ meta_keywords m = map fst KEYWORD_PATTERNS /\
  Forall2 same_fields (EntryParser.parse_input_file text) es /\
  Forall processed_ok es.
Proof. exact (process_result_spec now net text m es H). Qed.
End WithSetOrder.
End PipelineFacts.

(* ------------------------------------------------------------------ *)
(** ** The counters of [print_statistics] and [keyword_groups] *)

Module CountFacts.
Import Summary.
Local Open Scope nat_scope.
Local Open Scope list_scope.

Lemma assoc_bump t k g :
  assoc t (bump k g) =
  if String.eqb t k then Some (S (match assoc t g with Some n => n | None => 0 end))
  else assoc t g.
Proof.
  induction g as [|[k' n] g IH]; cbn [bump assoc].
  - destruct (String.eqb t k); reflexivity.
  - destruct (String.eqb k k') eqn:E1.
    + apply String.eqb_eq in E1. subst k'. cbn [assoc]. destruct (String.eqb t k); reflexivity.
    + cbn [assoc]. rewrite IH. destruct (String.eqb t k') eqn:E2; [|reflexivity].
      apply String.eqb_eq in E2. subst t. rewrite String.eqb_sym, E1. reflexivity.
Qed.

Lemma fold_bump t l g :
  assoc t g <> Some 0 ->
  assoc t (fold_left (fun m x => bump x m) l g) =
  (let n := match assoc t g with Some n => n | None => 0 end + count_occ string_dec l t in
   if n =? 0 then None else Some n).
Proof.
  revert g. induction l as [|x l IH]; intros g Hg; cbn [fold_left count_occ].
  - destruct (assoc t g) as [n|]; [|reflexivity].
    rewrite Nat.add_0_r. destruct n; [congruence|reflexivity].
  - rewrite IH.
    + rewrite assoc_bump. destruct (String.eqb t x) eqn:E.
      * apply String.eqb_eq in E. subst x. destruct (string_dec t t); [|congruence].
        cbn zeta. rewrite Nat.add_succ_r. reflexivity.
      * destruct (string_dec x t) as [->|_]; [rewrite String.eqb_refl in E; discriminate|].
        reflexivity.
    + rewrite assoc_bump. destruct (String.eqb t x); [discriminate|exact Hg].
Qed.

Lemma bump_keys_in t k g : In t (map fst (bump k g)) <-> t = k \/ In t (map fst g).
Proof.
  induction g as [|[k' n] g IH]; cbn [bump map fst].
  - simpl. split; intros [H|[]]; auto.
  - destruct (String.eqb k k') eqn:E.
    + apply String.eqb_eq in E. subst k'. simpl. split; [tauto|]. intros [->|H]; auto.
    + simpl. rewrite IH. tauto.
Qed.

Lemma bump_keys_nodup k g : List.NoDup (map fst g) -> List.NoDup (map fst (bump k g)).
Proof.
  induction g as [|[k' n] g IH]; cbn [bump map fst]; intros Hnd.
  - repeat constructor. simpl. tauto.
  - inversion Hnd as [|? ? Hk' Hnd']; subst.
    destruct (String.eqb k k') eqn:E; simpl; constructor; [exact Hk'|exact Hnd'| |exact (IH Hnd')].
    rewrite bump_keys_in. intros [->|H]; [rewrite String.eqb_refl in E; discriminate|contradiction].
Qed.

Lemma fold_bump_nodup l g :
  List.NoDup (map fst g) -> List.NoDup (map fst (fold_left (fun m x => bump x m) l g)).
Proof.
  revert g. induction l as [|x l IH]; intros g Hg; [exact Hg|].
  apply IH, bump_keys_nodup, Hg.
Qed.

(** What a counter built by [bump] from nothing holds. *)
Lemma counter_spec l :
  let g := fold_left (fun m x => bump x m) l [] in
  (forall t, assoc t g = if count_occ string_dec l t =? 0 then None
                         else Some (count_occ string_dec l t)) /\
  List.NoDup (map fst g).
Proof.
  split.
  - intros t. rewrite fold_bump by discriminate. reflexivity.
  - apply fold_bump_nodup. constructor.
Qed.

Lemma assoc_in {A} (g : list (string * A)) t v :
  List.NoDup (map fst g) -> (In (t, v) g <-> assoc t g = Some v).
Proof.
  induction g as [|[k w] g IH]; intros Hnd; cbn [assoc]; [simpl; split; [tauto|discriminate]|].
  inversion Hnd as [|? ? Hk Hnd']; subst. cbn [In].
  destruct (String.eqb t k) eqn:E.
  - apply String.eqb_eq in E. subst k. split.
    + intros [H|H]; [congruence|]. exfalso. apply Hk. apply in_map_iff. exists (t, v). auto.
    + intros H. injection H as ->. left. reflexivity.
  - rewrite <- IH by exact Hnd'. split; [|tauto].
    intros [H|H]; [|exact H]. injection H as ->. rewrite String.eqb_refl in E. discriminate.
Qed.

Lemma counter_in l t n :
  In (t, n) (fold_left (fun m x => bump x m) l []) <->
  0 < n /\ count_occ string_dec l t = n.
Proof.
  destruct (counter_spec l) as [Ha Hnd].
  rewrite (assoc_in _ _ _ Hnd), Ha.
  destruct (count_occ string_dec l t =? 0) eqn:E.
  - apply Nat.eqb_eq in E. split; [discriminate|lia].
  - apply Nat.eqb_neq in E. split; [intros H; injection H as <-; lia|].
    intros [_ <-]. reflexivity.
Qed.
End CountFacts.

Module StatsFacts.
Import Classifier Pipeline SortFacts CountFacts.
Local Open Scope nat_scope.
Local Open Scope list_scope.

Lemma count_tags_split entries tc kc :
  fold_left (fun '(tc, kc) e =>
               (fold_left (fun m t => Summary.bump t m) (themes e) tc,
                fold_left (fun m k => Summary.bump k m) (keywords e) kc))
            entries (tc, kc)
  = (fold_left (fun m t => Summary.bump t m) (flat_map themes entries) tc,
     fold_left (fun m k => Summary.bump k m) (flat_map keywords entries) kc).
Proof.
  revert tc kc. induction entries as [|e es IH]; intros tc kc; [reflexivity|].
  cbn [fold_left flat_map]. rewrite IH, !fold_left_app. reflexivity.
Qed.

Lemma count_tags_eq entries :
  count_tags entries =
  (fold_left (fun m t => Summary.bump t m) (flat_map themes entries) [],
   fold_left (fun m k => Summary.bump k m) (flat_map keywords entries) []).
Proof. apply count_tags_split. Qed.

(** X10. The [theme_counts] and [keyword_counts] of [print_statistics]
    hold, for each theme (keyword), the number of its occurrences in the
    entries' theme (keyword) lists, and have no key for a tag that occurs
    nowhere; no key appears twice. *)
Theorem count_tags_counts (entries : list NewsEntry) :
  let ths := flat_map themes entries in
  let kws := flat_map keywords entries in
  (forall t, Summary.assoc t (fst (count_tags entries)) =
     if count_occ string_dec ths t =? 0 then None else Some (count_occ string_dec ths t)) /\
  (forall k, Summary.assoc k (snd (count_tags entries)) =
     if count_occ string_dec kws k =? 0 then None else Some (count_occ string_dec kws k)) /\
  List.NoDup (map fst (fst (count_tags entries))) /\
  List.NoDup (map fst (snd (count_tags entries))).
Proof.
  intros ths kws. rewrite count_tags_eq. cbn [fst snd].
  destruct (counter_spec ths) as [H1 H2]. destruct (counter_spec kws) as [H3 H4].
  split; [exact H1|]. split; [exact H3|]. split; [exact H2|exact H4].
Qed.
Lemma sorted_split {A} (R : A -> A -> Prop) n l :
  StronglySorted R l ->
  StronglySorted R (firstn n l) /\
  (forall x y, In x (firstn n l) -> In y (skipn n l) -> R x y).
Proof.
  revert n. induction l as [|a l IH]; intros n Hs.
  - rewrite firstn_nil, skipn_nil. split; [constructor|intros x y []].
  - destruct n as [|n]; cbn [firstn skipn].
    + split; [constructor|intros x y []].
    + apply StronglySorted_inv in Hs as [Hs Ha]. destruct (IH n Hs) as [H1 H2].
      split.
      * constructor; [exact H1|]. apply List.Forall_forall. intros y Hy.
        apply TaggingFacts.in_firstn_in in Hy. exact (proj1 (List.Forall_forall _ _) Ha y Hy).
      * intros x y [<-|Hx] Hy; [|exact (H2 x y Hx Hy)].
        apply (proj1 (List.Forall_forall _ _) Ha). rewrite <- (firstn_skipn n l).
        apply in_or_app. right. exact Hy.
Qed.

Lemma perm_in_iff {A} (l l' : list A) x : Permutation l l' -> (In x l <-> In x l').
Proof. intros P. split; apply Permutation_in; [exact P|exact (Permutation_sym P)]. Qed.

Lemma desc_sorted l : StronglySorted desc (sort_desc l).
Proof.
  apply Sorted_StronglySorted; [intros a b c; unfold desc; lia|].
  exact (proj1 (proj2 (sort_desc_spec l))).
Qed.

(** X11. After its five header lines, [print_statistics] prints one row
    per theme that occurs, with its number of occurrences, in
    non-increasing order of count, then the keyword header and the
    rows of the most frequent keywords, in non-increasing order: a
    keyword that occurs but is not printed only misses out because 15
    rows are printed, each with a count at least its own. *)
Theorem print_statistics_rows (entries : list NewsEntry) :
  let ths := flat_map themes entries in
  let kws := flat_map keywords entries in
  exists trows krows,
    skipn 5 (print_statistics entries)
      = map stat_row trows ++ [Summary.nl ++ "=== Top Keywords ==="]%string ++ map stat_row krows /\
    (forall t n, In (t, n) trows <-> 0 < n /\ count_occ string_dec ths t = n) /\
    List.NoDup (map fst trows) /\ StronglySorted desc trows /\
    (forall k n, In (k, n) krows -> 0 < n /\ count_occ string_dec kws k = n) /\
    List.NoDup (map fst krows) /\ StronglySorted desc krows /\
    (forall k, In k kws -> ~ In k (map fst krows) ->
       List.length krows = 15 /\ Forall (fun r => count_occ string_dec kws k <= snd r) krows).
Proof.
  intros ths kws.
  set (tc := fold_left (fun m t => Summary.bump t m) ths []).
  set (kc := fold_left (fun m k => Summary.bump k m) kws []).
  destruct (sort_desc_spec tc) as [Ptc _]. destruct (sort_desc_spec kc) as [Pkc _].
  destruct (counter_spec ths) as [_ Ntc]. destruct (counter_spec kws) as [_ Nkc].
  fold tc in Ntc. fold kc in Nkc.
  exists (sort_desc tc), (firstn 15 (sort_desc kc)).
  destruct (sorted_split desc 15 (sort_desc kc) (desc_sorted kc)) as [Sk Hsplit].
  assert (Nsk : List.NoDup (map fst (sort_desc kc)))
    by exact (Permutation_NoDup (Permutation_map fst (Permutation_sym Pkc)) Nkc).
  split; [unfold print_statistics; rewrite count_tags_eq; reflexivity|].
  split; [intros t n; rewrite (perm_in_iff _ _ _ Ptc); exact (counter_in ths t n)|].
  split; [exact (Permutation_NoDup (Permutation_map fst (Permutation_sym Ptc)) Ntc)|].
  split; [exact (desc_sorted tc)|].
  split; [intros k n Hk; apply TaggingFacts.in_firstn_in in Hk;
          rewrite (perm_in_iff _ _ _ Pkc) in Hk; exact (proj1 (counter_in kws k n) Hk)|].
  split; [rewrite <- firstn_map; exact (TaggingFacts.list_nodup_firstn 15 _ Nsk)|].
  split; [exact Sk|].
  intros k Hk Hout.
  set (c := count_occ string_dec kws k).
  assert (Hin : In (k, c) (sort_desc kc)).
  { rewrite (perm_in_iff _ _ _ Pkc). apply counter_in. split; [|reflexivity].
    apply count_occ_In. exact Hk. }
  assert (Hrest : In (k, c) (skipn 15 (sort_desc kc))).
  { rewrite <- (firstn_skipn 15 (sort_desc kc)) in Hin. apply in_app_or in Hin.
    destruct Hin as [Hin|Hin]; [|exact Hin]. exfalso. apply Hout.
    apply in_map_iff. exists (k, c). split; [reflexivity|exact Hin]. }
  split.
  - rewrite length_firstn. apply Nat.min_l.
    assert (Hl : List.length (skipn 15 (sort_desc kc)) <> 0)
      by (destruct (skipn 15 (sort_desc kc)); [contradiction|discriminate]).
    rewrite length_skipn in Hl. lia.
  - apply List.Forall_forall. intros r Hr. exact (Hsplit r (k, c) Hr Hrest).
Qed.
End StatsFacts.

(* ------------------------------------------------------------------ *)
(** ** The fallback summary *)

Module FallbackFacts.
Import Summary StringFacts CountFacts.
Local Open Scope nat_scope.
Local Open Scope list_scope.

Lemma keyword_groups_aux es g :
  fold_left (fun g e => fold_left (fun g' kw => bump kw g') (s_keywords e) g) es g
  = fold_left (fun m x => bump x m) (flat_map s_keywords es) g.
Proof.
  revert g. induction es as [|e es IH]; intros g; [reflexivity|].
  cbn [fold_left flat_map]. rewrite IH, fold_left_app. reflexivity.
Qed.

Lemma flat_map_nil_iff {A B} (f : A -> list B) l :
  flat_map f l = [] <-> Forall (fun x => f x = []) l.
Proof.
  induction l as [|x l IH]; cbn [flat_map]; [split; [constructor|reflexivity]|].
  rewrite List.Forall_cons_iff, <- IH. split.
  - intros H. apply app_eq_nil in H. exact H.
  - intros [-> ->]. reflexivity.
Qed.

(** X12. The keyword groups of [generate_fallback_summary] hold, for each
    keyword, the number of its occurrences over the entries' keyword
    lists, with no key twice; there are none, and the [Key areas of focus]
    paragraph is left out, exactly when no entry has a keyword. *)
Theorem keyword_groups_counts (entries : list SEntry) :
  let kws := flat_map s_keywords entries in
  (forall k, assoc k (keyword_groups entries) =
     if count_occ string_dec kws k =? 0 then None else Some (count_occ string_dec kws k)) /\
  List.NoDup (map fst (keyword_groups entries)) /\
  (keyword_groups entries = [] <-> Forall (fun e => s_keywords e = []) entries).
Proof.
  intros kws. unfold keyword_groups. rewrite keyword_groups_aux. fold kws.
  destruct (counter_spec kws) as [Ha Hnd].
  split; [exact Ha|]. split; [exact Hnd|].
  rewrite <- flat_map_nil_iff. fold kws. split.
  - intros H. destruct kws as [|k ks] eqn:E; [reflexivity|exfalso].
    specialize (Ha k). rewrite H in Ha. cbn [assoc count_occ] in Ha.
    destruct (string_dec k k) as [_|n]; [discriminate|congruence].
  - intros ->. reflexivity.
Qed.
Lemma rstrip_keep s c w :
  (Ascii.eqb c ";" || Ascii.eqb c " ")%bool = false ->
  forallb (fun x => Ascii.eqb x ";" || Ascii.eqb x " ")%bool (list_ascii_of_string w) = true ->
  rstrip_semi_space (s ++ String c w) = (s ++ String c EmptyString)%string.
Proof.
  intros Hc Hw. unfold rstrip_semi_space.
  match goal with |- context [rev (?g (rev _))] => set (go := g) end.
  assert (Hskip : forall l r,
            forallb (fun x => Ascii.eqb x ";" || Ascii.eqb x " ")%bool l = true ->
            go (l ++ r) = go r).
  { induction l as [|a l IH]; intros r Hl; [reflexivity|].
    cbn [forallb] in Hl. apply andb_prop in Hl. destruct Hl as [Ha Hl].
    change (go ((a :: l) ++ r)) with
      (if (Ascii.eqb a ";" || Ascii.eqb a " ")%bool then go (l ++ r) else (a :: l) ++ r).
    rewrite Ha. exact (IH r Hl). }
  rewrite list_ascii_app. change (list_ascii_of_string (String c w)) with (c :: list_ascii_of_string w).
  rewrite rev_app_distr. cbn [rev]. rewrite <- app_assoc. cbn [app].
  rewrite Hskip.
  - change (go (c :: rev (list_ascii_of_string s))) with
      (if (Ascii.eqb c ";" || Ascii.eqb c " ")%bool then go (rev (list_ascii_of_string s))
       else c :: rev (list_ascii_of_string s)).
    rewrite Hc. cbn [rev]. rewrite rev_involutive, string_of_list_app, string_of_list_ascii_of_string.
    reflexivity.
  - apply List.forallb_forall. intros x Hx. apply in_rev in Hx.
    exact (proj1 (List.forallb_forall _ _) Hw x Hx).
Qed.
Lemma sample_links_shape es :
  Forall well_formed es ->
  exists links,
    Forall2 (fun e l => exists u t, s_url e = Some u /\ s_title e = Some t /\
               l = ("<a href=" ++ q ++ u ++ q ++ ">" ++ t ++ "</a>")%string) es links /\
    sample_links es = Ok (fold_right (fun l acc => (l ++ "; " ++ acc)%string) EmptyString links)%string.
Proof.
  induction 1 as [|e es [Ht Hu] _ (links & F & IH)]; [exists []; split; [constructor|reflexivity]|].
  destruct (s_url e) as [u|] eqn:Eu; [|contradiction].
  destruct (s_title e) as [t|] eqn:Et; [|contradiction].
  exists (("<a href=" ++ q ++ u ++ q ++ ">" ++ t ++ "</a>")%string :: links). split.
  - constructor; [|exact F]. exists u, t. auto.
  - cbn [sample_links]. rewrite Eu, Et. cbn [subscript bind]. rewrite IH. cbn [bind fold_right].
    rewrite !app_assoc_s. reflexivity.
Qed.

Lemma fold_links_join (links : list string) :
  links <> [] ->
  fold_right (fun l acc => (l ++ "; " ++ acc)%string) EmptyString links = (join "; " links ++ "; ")%string.
Proof.
  induction links as [|x [|y r] IH]; intros Hne; [congruence| |].
  - cbn [fold_right join]. rewrite app_nil_s. reflexivity.
  - change (join "; " (x :: y :: r)) with (x ++ "; " ++ join "; " (y :: r))%string.
    cbn [fold_right] in *. rewrite IH by discriminate. rewrite !app_assoc_s. reflexivity.
Qed.

Lemma join_ends (links : list string) :
  links <> [] -> Forall (fun l => exists a, l = (a ++ "</a>")%string) links ->
  exists J, join "; " links = (J ++ ">")%string.
Proof.
  induction links as [|x [|y r] IH]; intros Hne Hall; [congruence| |].
  - apply List.Forall_cons_iff in Hall. destruct Hall as [[a ->] _].
    exists (a ++ "</a")%string. cbn [join]. rewrite app_assoc_s. reflexivity.
  - apply List.Forall_cons_iff in Hall. destruct Hall as [_ Hall].
    destruct (IH ltac:(discriminate) Hall) as [J HJ].
    exists (x ++ "; " ++ J)%string.
    change (join "; " (x :: y :: r)) with (x ++ "; " ++ join "; " (y :: r))%string.
    rewrite HJ, !app_assoc_s. reflexivity.
Qed.

(** X13. For a theme of [THEME_INFO] and entries that carry a title
    and a URL, the fallback summary ends with the links of the first five
    entries, in order, each [<a href=URL>TITLE</a>], separated by
    [; ], then [.</p>]: the [rstrip('; ')] only removes the separator
    after the last link. Without entries it ends in
    [Notable developments included:.</p>]. *)
Theorem fallback_summary_ending (theme : string) (info : ThemeInfo) (entries : list SEntry)
    (Hi : assoc theme THEME_INFO = Some info) (Hwf : Forall well_formed entries) :
  exists intro links,
    Forall2 (fun e l => exists u t, s_url e = Some u /\ s_title e = Some t /\
               l = ("<a href=" ++ q ++ u ++ q ++ ">" ++ t ++ "</a>")%string)
            (firstn 5 entries) links /\
    generate_fallback_summary theme entries =
    Ok (intro ++ "<p>Notable developments included:"
        ++ match links with [] => EmptyString | _ => " " ++ join "; " links end
        ++ ".</p>")%string.
Proof.
  destruct (sample_links_shape (firstn 5 entries) (SummaryClaims.forall_firstn _ 5 _ Hwf))
    as (links & F & Hs).
  unfold generate_fallback_summary. rewrite Hi. cbn [subscript bind]. rewrite Hs. cbn [bind].
  cbv zeta.
  match goal with |- context [rstrip_semi_space (?X ++ _)] => exists X end.
  exists links. split; [exact F|]. f_equal.
  destruct links as [|l ls] eqn:El.
  - cbn [fold_right]. rewrite app_nil_s.
    change "<p>Notable developments included: " with
      ("<p>Notable developments included" ++ String ":" (String " " EmptyString))%string.
    rewrite <- app_assoc_s, rstrip_keep by reflexivity.
    rewrite !app_assoc_s. reflexivity.
  - rewrite <- El in *. rewrite fold_links_join by (rewrite El; discriminate).
    assert (Hends : Forall (fun l => exists a, l = (a ++ "</a>")%string) links).
    { clear -F. induction F as [|e l es ls (u & t & _ & _ & ->) _ IH]; constructor; [|exact IH].
      exists ("<a href=" ++ q ++ u ++ q ++ ">" ++ t)%string. rewrite !app_assoc_s. reflexivity. }
    destruct (join_ends links ltac:(rewrite El; discriminate) Hends) as [J HJ].
    rewrite HJ.
    match goal with |- (rstrip_semi_space (?X ++ _) ++ _)%string = _ =>
      replace (X ++ "<p>Notable developments included: " ++ (J ++ ">") ++ "; ")%string
        with ((X ++ "<p>Notable developments included: " ++ J) ++ String ">" (String ";" (String " " EmptyString)))%string
        by (rewrite !app_assoc_s; reflexivity) end.
    rewrite rstrip_keep by reflexivity.
    rewrite !app_assoc_s. reflexivity.
Qed.
End FallbackFacts.

(* ------------------------------------------------------------------ *)
(** ** Grouping by primary theme, and the summaries *)

Module OrganizeFacts.
Import Summary SummaryPage StringFacts.
Local Open Scope nat_scope.
Local Open Scope list_scope.

Lemma assoc_group_append t k e g :
  assoc t (group_append k e g) =
  if String.eqb t k then Some (match assoc t g with Some es => app es [e] | None => [e] end)
  else assoc t g.
Proof.
  induction g as [|[k' es] g IH]; cbn [group_append assoc].
  - destruct (String.eqb t k); reflexivity.
  - destruct (String.eqb k k') eqn:E1.
    + apply String.eqb_eq in E1. subst k'. cbn [assoc]. destruct (String.eqb t k); reflexivity.
    + cbn [assoc]. rewrite IH. destruct (String.eqb t k') eqn:E2; [|reflexivity].
      apply String.eqb_eq in E2. subst t. rewrite String.eqb_sym, E1. reflexivity.
Qed.

Lemma group_append_keys_in t k e g :
  In t (map fst (group_append k e g)) <-> t = k \/ In t (map fst g).
Proof.
  induction g as [|[k' es] g IH]; cbn [group_append map fst].
  - simpl. split; intros [H|[]]; auto.
  - destruct (String.eqb k k') eqn:E.
    + apply String.eqb_eq in E. subst k'. simpl. split; [tauto|]. intros [->|H]; auto.
    + simpl. rewrite IH. tauto.
Qed.

Lemma group_append_nodup k e g :
  List.NoDup (map fst g) -> List.NoDup (map fst (group_append k e g)).
Proof.
  induction g as [|[k' es] g IH]; cbn [group_append map fst]; intros Hnd.
  - repeat constructor. simpl. tauto.
  - inversion Hnd as [|? ? Hk' Hnd']; subst.
    destruct (String.eqb k k') eqn:E; simpl; constructor; [exact Hk'|exact Hnd'| |exact (IH Hnd')].
    rewrite group_append_keys_in. intros [->|H]; [rewrite String.eqb_refl in E; discriminate|contradiction].
Qed.

Lemma organize_aux_raise g data e :
  organize_aux g data = Raise e <->
  e = KeyError "themes" /\ List.Exists (fun je => j_themes je = None) data.
Proof.
  revert g. induction data as [|je data IH]; intros g; cbn [organize_aux].
  - split; [discriminate|]. intros [_ H]. inversion H.
  - rewrite List.Exists_cons. destruct (j_themes je) as [ths|] eqn:Ej; cbn [subscript bind].
    + destruct ths as [|t ts]; rewrite IH; split; (intros [H1 [H2|H2]] || intros [H1 H2]);
        try discriminate; auto.
    + split; [intros H; injection H as <-; auto|]. intros [-> _]. reflexivity.
Qed.

Lemma organize_aux_ok g data g' :
  List.NoDup (map fst g) -> organize_aux g data = Ok g' ->
  List.NoDup (map fst g') /\
  forall t,
    let F := map j_fields (List.filter (fun je => match j_themes je with
                                                  | Some (t' :: _) => String.eqb t t'
                                                  | _ => false end) data) in
    assoc t g' = match assoc t g, F with
                 | Some es, _ => Some (app es F)
                 | None, [] => None
                 | None, _ => Some F
                 end.
Proof.
  revert g. induction data as [|je data IH]; intros g Hnd H; cbn [organize_aux] in H.
  - injection H as <-. split; [exact Hnd|]. intros t. cbn.
    destruct (assoc t g); [rewrite app_nil_r|]; reflexivity.
  - destruct (j_themes je) as [ths|] eqn:Ej; cbn [subscript bind] in H; [|discriminate].
    destruct ths as [|t0 ts].
    + destruct (IH g Hnd H) as [Hnd' Ha]. split; [exact Hnd'|]. intros t.
      rewrite (Ha t). cbn [List.filter]. rewrite Ej. reflexivity.
    + destruct (IH _ (group_append_nodup t0 (j_fields je) g Hnd) H) as [Hnd' Ha].
      split; [exact Hnd'|]. intros t. rewrite (Ha t). cbn [List.filter]. rewrite Ej.
      rewrite assoc_group_append. destruct (String.eqb t t0) eqn:E; cbn [map].
      * destruct (assoc t g) as [es|]; [rewrite <- app_assoc; reflexivity|reflexivity].
      * reflexivity.
Qed.

(** X14. [organize_entries_by_theme] raises [KeyError('themes')], and
    nothing else, exactly when some entry has no [themes] key. Otherwise
    each theme key holds, in input order, the entries whose first theme
    it is, and there is no key for a theme that is no entry's first theme
    (an entry with an empty theme list is in no group); no key appears
    twice. *)
Theorem organize_entries_result (data : list JEntry) :
  (forall e, organize_entries_by_theme data = Raise e <->
             e = KeyError "themes" /\ List.Exists (fun je => j_themes je = None) data) /\
  (forall g, organize_entries_by_theme data = Ok g ->
     List.NoDup (map fst g) /\
     forall t,
       let F := map j_fields (List.filter (fun je => match j_themes je with
                                                     | Some (t' :: _) => String.eqb t t'
                                                     | _ => false end) data) in
       assoc t g = match F with [] => None | _ => Some F end).
Proof.
  split; [intros e; apply organize_aux_raise|].
  intros g H. destruct (organize_aux_ok [] data g (List.NoDup_nil _) H) as [Hnd Ha].
  split; [exact Hnd|]. intros t. exact (Ha t).
Qed.
Lemma claude_summary_ok api_key api theme info entries :
  assoc theme THEME_INFO = Some info -> List.Forall well_formed entries ->
  exists s, generate_theme_summary_with_claude api_key api theme entries = Ok s.
Proof.
  intros Hi Hw. destruct (SummaryClaims.fallback_ok theme info entries Hi Hw) as [fb Hfb].
  unfold generate_theme_summary_with_claude.
  destruct api_key as [k|]; [|exists fb; exact Hfb].
  destruct (String.eqb k EmptyString); [exists fb; exact Hfb|].
  destruct (SummaryClaims.entry_texts_ok (firstn 20 entries) (SummaryClaims.forall_firstn _ 20 _ Hw))
    as [texts Ht].
  rewrite Ht. cbn [bind]. rewrite Hi. cbn [subscript bind].
  destruct (api _) as [|status txt]; [exists fb; exact Hfb|].
  destruct (status =? 200)%Z; [destruct txt as [t|]; [exists t; reflexivity|exists fb; exact Hfb]|].
  rewrite Hfb. exists fb. reflexivity.
Qed.

Lemma assoc_some_of_in {A} (l : list (string * A)) t :
  In t (map fst l) -> exists v, assoc t l = Some v.
Proof.
  induction l as [|[k v] l IH]; cbn [map fst In assoc]; [intros []|].
  intros [->|H]; [rewrite String.eqb_refl; eauto|].
  destruct (String.eqb t k); [eauto|exact (IH H)].
Qed.

Lemma summaries_over_spec use_claude_api api_key api themed ks :
  (forall t, In t ks -> exists info, assoc t THEME_INFO = Some info) ->
  (forall t es, assoc t themed = Some es -> List.Forall well_formed es) ->
  exists sums, summaries_over use_claude_api api_key api themed ks = Ok sums /\
    map fst sums = List.filter (fun t => has_key t themed) ks /\
    forall t s, In (t, s) sums -> exists es, assoc t themed = Some es /\
      (if use_claude_api then generate_theme_summary_with_claude api_key api t es
       else generate_fallback_summary t es) = Ok s.
Proof.
  intros Hks Hwf. induction ks as [|k ks IH]; [exists []; split; [reflexivity|split; [reflexivity|intros t s []]]|].
  destruct IH as (more & Hm & Hkeys & Hall); [intros t Ht; apply Hks; right; exact Ht|].
  cbn [summaries_over List.filter]. unfold has_key at 1.
  destruct (assoc k themed) as [es|] eqn:Ek.
  - destruct (Hks k (or_introl eq_refl)) as [info Hi].
    assert (Hs : exists s, (if use_claude_api then generate_theme_summary_with_claude api_key api k es
                            else generate_fallback_summary k es) = Ok s).
    { destruct use_claude_api; [exact (claude_summary_ok _ _ _ _ _ Hi (Hwf _ _ Ek))|].
      exact (SummaryClaims.fallback_ok _ _ _ Hi (Hwf _ _ Ek)). }
    destruct Hs as [s Hs]. rewrite Hs. cbn [bind]. rewrite Hm. cbn [bind].
    exists ((k, s) :: more). split; [reflexivity|]. split; [cbn [map fst]; rewrite Hkeys; reflexivity|].
    intros t s' [He|Hin]; [injection He as <- <-; exists es; split; [exact Ek|exact Hs]|].
    exact (Hall t s' Hin).
  - exists more. split; [exact Hm|]. split; [exact Hkeys|exact Hall].
Qed.

Lemma existsb_filter_nonempty {A} (f : A -> bool) l :
  existsb f l = match List.filter f l with [] => false | _ => true end.
Proof.
  induction l as [|x l IH]; cbn [existsb List.filter]; [reflexivity|].
  destruct (f x); [reflexivity|exact IH].
Qed.

Lemma generate_summaries_spec (use_claude_api : bool) (api_key : option string)
    (api : string -> ApiOutcome) (data : list JEntry)
    (Hth : List.Forall (fun je => j_themes je <> None) data)
    (Hwf : List.Forall (fun je => well_formed (j_fields je)) data) :
  let primary t je := match j_themes je with Some (t' :: _) => String.eqb t t' | _ => false end in
  exists sums, generate_summaries use_claude_api api_key api data = Ok sums /\
    map fst sums = List.filter (fun t => existsb (primary t) data) (map fst THEME_INFO) /\
    forall t s, In (t, s) sums ->
      (if use_claude_api then
         generate_theme_summary_with_claude api_key api t (map j_fields (List.filter (primary t) data))
       else generate_fallback_summary t (map j_fields (List.filter (primary t) data))) = Ok s.
Proof.
  intros primary. unfold generate_summaries.
  destruct (organize_entries_by_theme data) as [themed|e] eqn:Eo.
  - destruct (organize_aux_ok [] data themed (List.NoDup_nil _) Eo) as [_ Ha].
    assert (Hg : forall t, assoc t themed =
                   match map j_fields (List.filter (primary t) data) with [] => None | F => Some F end).
    { intros t. pose proof (Ha t) as Hat. cbv zeta in Hat. rewrite Hat.
      cbn [assoc]. destruct (map j_fields _); reflexivity. }
    destruct (summaries_over_spec use_claude_api api_key api themed (map fst THEME_INFO))
      as (sums & Hs & Hkeys & Hall).
    + intros t Ht. exact (assoc_some_of_in THEME_INFO t Ht).
    + intros t es He. rewrite Hg in He.
      destruct (map j_fields (List.filter (primary t) data)) as [|x xs] eqn:Ef; [discriminate|].
      injection He as <-. rewrite <- Ef. apply List.Forall_map.
      apply List.Forall_forall. intros je Hje. apply List.filter_In in Hje.
      exact (proj1 (List.Forall_forall _ _) Hwf je (proj1 Hje)).
    + cbn [bind]. exists sums. split; [exact Hs|]. split.
      * rewrite Hkeys. apply List.filter_ext. intros t. unfold has_key. rewrite Hg, existsb_filter_nonempty.
        destruct (List.filter (primary t) data); reflexivity.
      * intros t s Hin. destruct (Hall t s Hin) as (es & He & Hes).
        rewrite Hg in He. destruct (map j_fields (List.filter (primary t) data)) as [|x xs] eqn:Ef;
          [discriminate|]. injection He as <-. exact Hes.
  - exfalso. apply organize_aux_raise in Eo. destruct Eo as [_ Hex].
    apply List.Exists_exists in Hex. destruct Hex as (je & Hin & Hn).
    exact (proj1 (List.Forall_forall _ _) Hth je Hin Hn).
Qed.

(** X15. When every entry has a [themes] key and every entry carries a
    title and a URL, [generate_summaries] never raises (whatever the
    credential and the service's answers). Its keys are the themes of
    [THEME_INFO] that are some entry's first theme, in [THEME_INFO]
    order; a first theme outside [THEME_INFO] gets no summary. Each
    summary is computed from the theme's group of entries. *)
Theorem generate_summaries_result (use_claude_api : bool) (api_key : option string)
    (api : string -> ApiOutcome) (data : list JEntry)
    (Hth : List.Forall (fun je => j_themes je <> None) data)
    (Hwf : List.Forall (fun je => well_formed (j_fields je)) data) :
  let primary t je := match j_themes je with Some (t' :: _) => String.eqb t t' | _ => false end in
  exists sums, generate_summaries use_claude_api api_key api data = Ok sums /\
    map fst sums = List.filter (fun t => existsb (primary t) data) (map fst THEME_INFO) /\
    forall t s, In (t, s) sums ->
      (if use_claude_api then
         generate_theme_summary_with_claude api_key api t (map j_fields (List.filter (primary t) data))
       else generate_fallback_summary t (map j_fields (List.filter (primary t) data))) = Ok s.
Proof. exact (generate_summaries_spec use_claude_api api_key api data Hth Hwf). Qed.
End OrganizeFacts.

(* ------------------------------------------------------------------ *)
(** ** The summary page and the master pipeline *)

Module PageFacts.
Import Summary SummaryPage OrganizeFacts.
Local Open Scope nat_scope.
Local Open Scope list_scope.

Lemma insert_prio_last x l :
  Forall (fun y => ti_priority (snd y) <= ti_priority (snd x)) l -> insert_prio x l = l ++ [x].
Proof.
  induction 1 as [|y l Hy _ IH]; [reflexivity|]. cbn [insert_prio].
  apply Nat.leb_le in Hy. rewrite Hy, IH. reflexivity.
Qed.

Lemma fold_insert_prio_sorted l acc :
  StronglySorted (fun a b => ti_priority (snd a) <= ti_priority (snd b)) l ->
  (forall a b, In a acc -> In b l -> ti_priority (snd a) <= ti_priority (snd b)) ->
  fold_left (fun acc x => insert_prio x acc) l acc = acc ++ l.
Proof.
  revert acc. induction l as [|x l IH]; intros acc Hs Hle; cbn [fold_left]; [rewrite app_nil_r; reflexivity|].
  apply StronglySorted_inv in Hs. destruct Hs as [Hs Hx].
  rewrite insert_prio_last.
  - rewrite IH; [rewrite <- app_assoc; reflexivity|exact Hs|].
    intros a b Ha Hb. apply in_app_or in Ha. destruct Ha as [Ha|[<-|[]]].
    + apply Hle; [exact Ha|right; exact Hb].
    + exact (proj1 (List.Forall_forall _ _) Hx b Hb).
  - apply List.Forall_forall. intros y Hy. apply Hle; [exact Hy|left; reflexivity].
Qed.

Lemma sorted_filter {A} (R : A -> A -> Prop) (f : A -> bool) l :
  StronglySorted R l -> StronglySorted R (List.filter f l).
Proof.
  induction 1 as [|x l Hs IH Hx]; cbn [List.filter]; [constructor|].
  destruct (f x); [|exact IH]. constructor; [exact IH|].
  apply List.Forall_forall. intros y Hy. apply List.filter_In in Hy.
  exact (proj1 (List.Forall_forall _ _) Hx y (proj1 Hy)).
Qed.

Lemma theme_info_sorted :
  StronglySorted (fun a b => ti_priority (snd a) <= ti_priority (snd b)) THEME_INFO.
Proof.
  apply Sorted_StronglySorted; [intros a b c; lia|].
  repeat (constructor; cbn; try lia).
Qed.

(** X16. The themes of the summary page, its table of contents and its
    sections, come in [THEME_INFO] order, restricted to the themes that
    have a summary: the priorities increase along [THEME_INFO], so the
    stable sort by priority leaves that order unchanged. *)
Theorem sorted_themes_order (summaries : list (string * string)) :
  sorted_themes summaries = List.filter (fun kv => has_key (fst kv) summaries) THEME_INFO.
Proof.
  unfold sorted_themes, sort_by_priority.
  rewrite fold_insert_prio_sorted; [reflexivity| |intros a b []].
  apply sorted_filter, theme_info_sorted.
Qed.


Section WithSetOrder.
Variable set_list : list string -> list string.
Hypothesis set_list_sub : forall l x, In x (set_list l) -> In x l.

End WithSetOrder.
End PageFacts.

(* ------------------------------------------------------------------ *)
(** ** When [urlparse] raises *)

Module UrlFacts.
Import Url StringFacts.
Local Open Scope nat_scope.








End UrlFacts.

(* ------------------------------------------------------------------ *)
(** ** The properties at concrete inputs *)

Module ExtraWitnesses.
Import Classifier Enricher Invariants Scenarios ExtraScenarios.
Local Open Scope nat_scope.
Local Open Scope list_scope.

Lemma sc_set_list_sub : forall l x, In x (sc_set_list l) -> In x l.
Proof. intros l x H. exact (proj1 (List.nodup_In string_dec l x) H). Qed.

Lemma extract_date_format_witness :
  DateExtractor.extract_date "https://example.gov/2025/01/15/nsf-budget-cuts" = Some "2025-01-15" /\
  (String.length "2025-01-15" = 10%nat /\
   String.get 4 "2025-01-15" = Some "-"%char /\ String.get 7 "2025-01-15" = Some "-"%char /\
   (forall i, In i [0; 1; 2; 3; 5; 6; 8; 9]%nat ->
      exists c, String.get i "2025-01-15" = Some c /\ Text.is_digit c = true) /\
   "2025-01-15" <> EmptyString /\
   DateExtractor.extract_date ("/" ++ "2025-01-15") = Some "2025-01-15").
Proof.
  assert (H : DateExtractor.extract_date "https://example.gov/2025/01/15/nsf-budget-cuts"
              = Some "2025-01-15") by (vm_compute; reflexivity).
  split; [exact H|]. exact (DateFormatFacts.extract_date_format _ _ H).
Defined.

Lemma parsed_entry_fields_witness :
  In xs_e2 (EntryParser.parse_input_file xs_text) /\
  (url xs_e2 <> EmptyString /\ contains (String EntryParser.dq EmptyString) (url xs_e2) = false /\
   title xs_e2 <> EmptyString /\ contains "<" (title xs_e2) = false /\
   date xs_e2 = DateExtractor.extract_date (url xs_e2) /\
   themes xs_e2 = [] /\ keywords xs_e2 = [] /\ content_snippet xs_e2 = None).
Proof.
  assert (H : In xs_e2 (EntryParser.parse_input_file xs_text)).
  { assert (Hp : EntryParser.parse_input_file xs_text
                 = [mkEntry 1 "https://bsky.app/profile/x/post/1" "hello" None [] [] None; xs_e2])
      by (vm_compute; reflexivity).
    rewrite Hp. right. left. reflexivity. }
  split; [exact H|]. exact (ParserFieldFacts.parsed_entry_fields _ _ H).
Defined.


Lemma enriched_tags_result_witness :
  (forall l x, In x (sc_set_list l) -> In x l) /\
  (let e' := tag_entry_with_content sc_set_list sc_e1 "nasa climate research" in
   let combined := lower (url sc_e1 ++ " " ++ title sc_e1 ++ " " ++ "nasa climate research") in
   id e' = id sc_e1 /\ url e' = url sc_e1 /\ title e' = title sc_e1 /\ date e' = date sc_e1 /\
   content_snippet e' = content_snippet sc_e1 /\
   NoDup (themes e') /\
   Forall (fun t => In t (map fst THEMES)) (themes e') /\
   Forall (fun k => In k (map fst KEYWORD_PATTERNS)) (keywords e') /\
   (themes e' = [] <-> no_theme_pattern combined = true) /\
   (themes_text (lower (url sc_e1 ++ " " ++ title sc_e1)) <> [] -> themes e' <> [])).
Proof.
  split; [exact sc_set_list_sub|].
  exact (TaggingFacts.enriched_tags_result sc_set_list sc_set_list_sub sc_e1 "nasa climate research").
Defined.

Lemma empty_extraction_cached_witness :
  cache sc_st !! "https://bsky.app/profile/z/post/3" = None /\
  select_content xs_empty_soup content_selectors = Some (Some EmptyString) /\
  (let r := fetch_bluesky_content sc_st "https://bsky.app/profile/z/post/3"
              (Response 200 (Some xs_empty_soup)) in
   fst r = Some EmptyString /\ truthy (fst r) = false /\
   cache (snd r) = <["https://bsky.app/profile/z/post/3" := EmptyString]> (cache sc_st) /\
   requests (snd r) = requests sc_st ++ ["https://bsky.app/profile/z/post/3"] /\
   (forall net', fetch_bluesky_content (snd r) "https://bsky.app/profile/z/post/3" net'
                 = (Some EmptyString, snd r))).
Proof.
  assert (H1 : cache sc_st !! "https://bsky.app/profile/z/post/3" = None) by reflexivity.
  assert (H2 : select_content xs_empty_soup content_selectors = Some (Some EmptyString))
    by reflexivity.
  split; [exact H1|]. split; [exact H2|].
  exact (FetchFacts.empty_extraction_cached _ _ _ H1 H2).
Defined.

Lemma fetched_content_bounded_witness :
  (forall k v, cache sc_st !! k = Some v -> String.length v <= 500) /\
  fst (fetch_bluesky_content sc_st "https://bsky.app/profile/x/post/1" (Response 200 (Some sc_soup)))
    = Some "nasa climate research" /\
  (String.length "nasa climate research" <= 500 /\
   (forall k v, cache (snd (fetch_bluesky_content sc_st "https://bsky.app/profile/x/post/1"
                              (Response 200 (Some sc_soup)))) !! k = Some v ->
      String.length v <= 500)).
Proof.
  assert (H1 : forall k v, cache sc_st !! k = Some v -> String.length v <= 500).
  { intros k v Hk. cbn [cache sc_st] in Hk. rewrite lookup_empty in Hk. discriminate. }
  assert (H2 : fst (fetch_bluesky_content sc_st "https://bsky.app/profile/x/post/1"
                      (Response 200 (Some sc_soup))) = Some "nasa climate research")
    by (vm_compute; reflexivity).
  split; [exact H1|]. split; [exact H2|].
  exact (FetchFacts.fetched_content_bounded _ _ _ _ H1 H2).
Defined.

(** The data [process] returns on the two-line diary. *)
Lemma xs_process :
  Pipeline.process sc_set_list "now" sc_net xs_text =
  Some (Pipeline.mkMetadata "now" 2 (map fst THEMES) (map fst KEYWORD_PATTERNS),
        [mkEntry 1 "https://bsky.app/profile/x/post/1" "hello" None ["science"]
           ["nasa"; "climate"] (Some "nasa climate research");
         mkEntry 2 "https://example.gov/2025/01/15/nsf-budget-cuts" "NSF budget cuts announced"
           (Some "2025-01-15") ["science"; "economy"] ["nsf"] None]).
Proof. vm_compute. reflexivity. Qed.

Lemma process_result_witness :
  (forall l x, In x (sc_set_list l) -> In x l) /\
  (let m := Pipeline.mkMetadata "now" 2 (map fst THEMES) (map fst KEYWORD_PATTERNS) in
   let es := [mkEntry 1 "https://bsky.app/profile/x/post/1" "hello" None ["science"]
                ["nasa"; "climate"] (Some "nasa climate research");
              mkEntry 2 "https://example.gov/2025/01/15/nsf-budget-cuts" "NSF budget cuts announced"
                (Some "2025-01-15") ["science"; "economy"] ["nsf"] None] in
   Pipeline.process sc_set_list "now" sc_net xs_text = Some (m, es) /\
   (Pipeline.generated m = "now" /\ Pipeline.total_entries m = List.length es /\
    Pipeline.meta_themes m = map fst THEMES /\
    Pipeline.meta_keywords m = map fst KEYWORD_PATTERNS /\
    Forall2 same_fields (EntryParser.parse_input_file xs_text) es /\
    Forall processed_ok es)).
Proof.
  split; [exact sc_set_list_sub|]. intros m es.
  split; [exact xs_process|].
  exact (PipelineFacts.process_result sc_set_list sc_set_list_sub "now" sc_net xs_text m es xs_process).
Defined.

Lemma fallback_summary_ending_witness :
  Summary.assoc "science" Summary.THEME_INFO
    = Some (Summary.mkInfo "Scientific Research and Space Programs" 3
              "Changes to NSF, NASA, climate research, and federal research funding") /\
  Forall Summary.well_formed sc_sentries /\
  (exists intro links,
    Forall2 (fun e l => exists u t, Summary.s_url e = Some u /\ Summary.s_title e = Some t /\
               l = ("<a href=" ++ Summary.q ++ u ++ Summary.q ++ ">" ++ t ++ "</a>")%string)
            (firstn 5 sc_sentries) links /\
    Summary.generate_fallback_summary "science" sc_sentries =
    Summary.Ok (intro ++ "<p>Notable developments included:"
        ++ match links with [] => EmptyString | _ => " " ++ Summary.join "; " links end
        ++ ".</p>")%string).
Proof.
  assert (Hi : Summary.assoc "science" Summary.THEME_INFO
    = Some (Summary.mkInfo "Scientific Research and Space Programs" 3
              "Changes to NSF, NASA, climate research, and federal research funding"))
    by reflexivity.
  assert (Hw : Forall Summary.well_formed sc_sentries) by (repeat constructor; discriminate).
  split; [exact Hi|]. split; [exact Hw|].
  exact (FallbackFacts.fallback_summary_ending "science" _ sc_sentries Hi Hw).
Defined.

Lemma generate_summaries_result_witness :
  Forall (fun je => SummaryPage.j_themes je <> None) xs_data /\
  Forall (fun je => Summary.well_formed (SummaryPage.j_fields je)) xs_data /\
  (let primary t je := match SummaryPage.j_themes je with
                       | Some (t' :: _) => String.eqb t t' | _ => false end in
   exists sums, SummaryPage.generate_summaries false None (fun _ => Summary.TransportError) xs_data
                = Summary.Ok sums /\
    map fst sums = List.filter (fun t => existsb (primary t) xs_data) (map fst Summary.THEME_INFO) /\
    forall t s, In (t, s) sums ->
      (if false then
         Summary.generate_theme_summary_with_claude None (fun _ => Summary.TransportError) t
           (map SummaryPage.j_fields (List.filter (primary t) xs_data))
       else Summary.generate_fallback_summary t
              (map SummaryPage.j_fields (List.filter (primary t) xs_data))) = Summary.Ok s).
Proof.
  assert (H1 : Forall (fun je => SummaryPage.j_themes je <> None) xs_data)
    by (repeat constructor; discriminate).
  assert (H2 : Forall (fun je => Summary.well_formed (SummaryPage.j_fields je)) xs_data)
    by (repeat constructor; discriminate).
  split; [exact H1|]. split; [exact H2|].
  exact (OrganizeFacts.generate_summaries_result false None _ xs_data H1 H2).
Defined.


End ExtraWitnesses.
